(** * cc-finder: the CAS-number lookup tool of [src/index.ts]

    A shallow embedding of the TypeScript program and the properties of
    its natural-language specification.

    Conventions of the embedding.
    - A JavaScript string is a [string]: a sequence of code units.  The
      model covers the code units 0..255; every literal of the program is
      ASCII.
    - A JavaScript [number] that the program only reads as an integer (an
      HTTP status, a PubChem compound id, a delay in milliseconds) is a [Z].
      A number holds an integer exactly, and prints it as its decimal
      numeral, up to a magnitude of 2^53 - 1 ([safe_integer]).
    - [undefined] and [null] are [None] of an option type.
    - An [async] function is a function in the monad [M] of section
      "Effects": it threads the requests made and the pauses taken, and it
      either returns or throws. *)

From Stdlib Require Import ZArith Ascii DecimalString DecimalPos DecimalZ.
From stdpp Require Import base option list strings gmap.

(** ** Strings *)

Module Str.

Definition is_empty (s : string) : bool := bool_decide (s = EmptyString).

(** JavaScript truthiness of a string: every string but the empty one. *)
Definition truthy (s : string) : bool := negb (is_empty s).

(** Truthiness of a value that may be [undefined]. *)
Definition truthy_opt (o : option string) : bool :=
  match o with Some s => truthy s | None => false end.

(** [a || b] on possibly-undefined strings: [a] when it is truthy,
    otherwise [b] whatever it is. *)
Definition or (a b : option string) : option string :=
  if truthy_opt a then a else b.

(** [a || "literal"]: the right operand is a string, so the result is. *)
Definition or_default (a : option string) (d : string) : string :=
  match a with
  | Some s => if truthy s then s else d
  | None => d
  end.

(** Number to string of an integer: its decimal numeral, with a leading
    minus sign for negatives.  This is what a template literal prints for
    the integers a JavaScript number holds exactly (magnitude at most
    2^53 - 1, [safe_integer] below); the theorems that state the digits
    carry that bound as a hypothesis. *)
Definition of_Z (z : Z) : string := NilZero.string_of_int (Z.to_int z).

Definition of_nat (n : nat) : string := of_Z (Z.of_nat n).

End Str.

(** ** Command line: the default output path ([main], lines 253-256) *)

Module Cli.

(** Canonicalisation of a code unit under the [i] flag: ASCII lower-case
    letters go to upper case.  No code unit outside ASCII canonicalises to
    an ASCII one, so for matching an ASCII pattern the others may stay. *)
Definition canonicalize (c : ascii) : ascii :=
  let n := nat_of_ascii c in
  if ((97 <=? n) && (n <=? 122))%nat then ascii_of_nat (n - 32) else c.

Definition char_matches_i (pattern c : ascii) : bool :=
  bool_decide (canonicalize pattern = canonicalize c).

(** The pattern [\.csv$] with flag [i], tried at the start of [s]: the
    four characters, then the end of the input. *)
Definition matches_csv_here (s : string) : bool :=
  match s with
  | String c0 (String c1 (String c2 (String c3 EmptyString))) =>
      char_matches_i "." c0 && char_matches_i "c" c1 &&
      char_matches_i "s" c2 && char_matches_i "v" c3
  | _ => false
  end.

(** [s.replace(/\.csv$/i, "_results.csv")]: the first position, from the
    left, where the pattern matches is replaced; without a match the
    string is returned as it is. *)
Fixpoint replace_csv_suffix (s : string) : string :=
  if matches_csv_here s then "_results.csv"
  else match s with
       | EmptyString => EmptyString
       | String c rest => String c (replace_csv_suffix rest)
       end.

(** Does the pattern match anywhere, that is, does [s] end in [.csv]
    in any letter case. *)
Fixpoint has_csv_suffix (s : string) : bool :=
  matches_csv_here s ||
  match s with
  | EmptyString => false
  | String _ rest => has_csv_suffix rest
  end.

Section Main.
(** [path.resolve] of Node, which depends on the working directory. *)
Variable path_resolve : string -> string.

(** The two paths [main] computes from [process.argv.slice(2)];
    [None] is the usage message followed by exit code 1. *)
Definition main_paths (args : list string) : option (string * string) :=
  match args !! 0%nat with
  | None => None
  | Some arg0 =>
      let inputPath := path_resolve arg0 in
      let outputPath :=
        if Str.truthy_opt (args !! 1%nat)
        then path_resolve (default EmptyString (args !! 1%nat))
        else replace_csv_suffix inputPath in
      Some (inputPath, outputPath)
  end.
End Main.

End Cli.

(** ** Data model (the interfaces of lines 9-47) *)

Module ChemicalData.
Record t := mk {
  chemical_name : string;
  smiles_code : string;
  molecular_formula : string;
  structure_image_url : string;
}.
End ChemicalData.

Module OutputRow.
Record t := mk {
  cas_number : string;
  chemical_name : string;
  smiles_code : string;
  molecular_formula : string;
  structure_image_url : string;
  status : string;
  error : option string;          (* [error?: string] *)
}.
End OutputRow.

(** What [getCompoundByCas] resolves to:
    [{ data: ChemicalData | null; error: string | null }]. *)
Record LookupResult := {
  data : option ChemicalData.t;
  error : option string;
}.

(** The body of a response seen through the two casts of the program,
    [{ IdentifierList: { CID: number[] } }] and [PubChemPropertyResponse].
    Every level the program reads with [?.] may be missing. *)
Record IdentifierList_t := { CID : option (list Z) }.

Record Properties_t := {
  Properties_CID : Z;
  IUPACName : option string;
  Title : option string;
  MolecularFormula : option string;
  CanonicalSMILES : option string;
  ConnectivitySMILES : option string;
}.

Record PropertyTable_t := { Properties : option (list Properties_t) }.

Record JsonObject := {
  IdentifierList : option IdentifierList_t;
  PropertyTable : option PropertyTable_t;
}.

(** ** Effects: requests, pauses and exceptions *)

(** A thrown value: an [Error] with its message, or anything else. *)
Inductive thrown :=
| ThrownError (message : string)
| ThrownOther.

(** [response.json()] rejects (body that is not JSON; also a body that
    parses to [null], on which the first property access throws) or
    resolves to an object. *)
Inductive JsonOutcome :=
| JsonRejects (e : thrown)
| JsonResolves (o : JsonObject).

Record Response := {
  status : Z;
  statusText : string;
  json : JsonOutcome;
}.

(** [response.ok]: the status is in the range 200-299. *)
Definition ok (r : Response) : bool :=
  ((200 <=? status r) && (status r <=? 299))%Z.

(** [fetch(url)] rejects (network failure) or resolves to a response. *)
Inductive FetchOutcome :=
| FetchRejects (e : thrown)
| FetchResolves (r : Response).

(** The upstream service as one lookup sees it: the answer to its [n]-th
    request (counted from 0), which may depend on the URL asked. *)
Definition Upstream := nat -> string -> FetchOutcome.

Inductive Event :=
| Requested (url : string)
| Slept (ms : Z)
| Printed (line : string).

(** What an asynchronous computation has done so far. *)
Record Session := {
  requests : nat;
  history : list Event;
}.

Definition Session0 : Session := {| requests := 0; history := [] |}.

Inductive Result (A : Type) :=
| Value (a : A)
| Raise (e : thrown).
Arguments Value {A} a.
Arguments Raise {A} e.

Definition M (A : Type) : Type := Session -> Result A * Session.

Definition ret {A} (a : A) : M A := fun s => (Value a, s).

Definition throw {A} (e : thrown) : M A := fun s => (Raise e, s).

Definition bind {A B} (m : M A) (k : A -> M B) : M B :=
  fun s =>
    match m s with
    | (Value a, s1) => k a s1
    | (Raise e, s1) => (Raise e, s1)
    end.

(** [try { body } catch (error) { handler }] *)
Definition try_catch {A} (body : M A) (handler : thrown -> M A) : M A :=
  fun s =>
    match body s with
    | (Value a, s1) => (Value a, s1)
    | (Raise e, s1) => handler e s1
    end.

Notation "'let*' x ':=' m 'in' k" := (bind m (fun x => k))
  (at level 10, x name, m at level 100, k at level 200).
Notation "m ';;' k" := (bind m (fun _ => k))
  (at level 100, k at level 200, right associativity).

Definition record (ev : Event) (s : Session) : Session :=
  {| requests := requests s; history := history s ++ [ev] |}.

Section Lookup.
Variable upstream : Upstream.

(** [await fetch(url)] *)
Definition fetch (url : string) : M Response :=
  fun s =>
    let s1 := {| requests := S (requests s);
                 history := history s ++ [Requested url] |} in
    match upstream (requests s) url with
    | FetchRejects e => (Raise e, s1)
    | FetchResolves r => (Value r, s1)
    end.

(** [await new Promise((resolve) => setTimeout(resolve, ms))] *)
Definition sleep (ms : Z) : M unit :=
  fun s => (Value tt, record (Slept ms) s).

(** [console.log(line)] *)
Definition console_log (line : string) : M unit :=
  fun s => (Value tt, record (Printed line) s).

(** [await response.json()] *)
Definition response_json (r : Response) : M JsonObject :=
  match json r with
  | JsonRejects e => throw e
  | JsonResolves o => ret o
  end.

(** *** [fetchWithRetry] (lines 49-76)

    The loop [for (let i = 0; i < retries; i++)] with [remaining] the
    number of iterations left, [retries - i]. *)
Fixpoint fetchWithRetry_loop (url : string) (delay : Z)
         (remaining : nat) (i : Z) : M Response :=
  match remaining with
  | O => throw (ThrownError "Max retries exceeded")
  | S remaining' =>
      let* response := fetch url in
      if ok response then ret response
      else if ((status response =? 503) || (status response =? 429))%Z then
        sleep (delay * (i + 1))%Z ;;
        fetchWithRetry_loop url delay remaining' (i + 1)%Z
      else if (status response =? 404)%Z then
        throw (ThrownError "Compound not found in PubChem")
      else
        throw (ThrownError ("HTTP " +:+ Str.of_Z (status response) +:+ ": "
                            +:+ statusText response))
  end.

Definition fetchWithRetry_with (url : string) (retries : nat) (delay : Z)
  : M Response :=
  fetchWithRetry_loop url delay retries 0%Z.

(** The default parameters [retries = 3], [delay = 1000]. *)
Definition fetchWithRetry (url : string) : M Response :=
  fetchWithRetry_with url 3 1000%Z.
End Lookup.

(** ** URLs *)

Module Url.

Definition hex_digit (n : nat) : ascii :=
  default "0"%char (String.get n "0123456789ABCDEF").

Definition percent (byte : nat) : string :=
  String "%" (String (hex_digit (byte / 16))
                     (String (hex_digit (byte mod 16)) EmptyString)).

(** The characters [encodeURIComponent] leaves alone:
    [A-Z a-z 0-9 - _ . ! ~ * ' ( )]. *)
Definition unreserved (n : nat) : bool :=
  ((65 <=? n) && (n <=? 90) || (97 <=? n) && (n <=? 122) ||
   (48 <=? n) && (n <=? 57) ||
   bool_decide (n ∈ [45; 95; 46; 33; 126; 42; 39; 40; 41]))%nat.

(** One code unit: itself when unreserved, otherwise the bytes of its
    UTF-8 encoding, each as [%XX]. *)
Definition encode_unit (c : ascii) : string :=
  let n := nat_of_ascii c in
  if unreserved n then String c EmptyString
  else if (n <? 128)%nat then percent n
  else percent (192 + n / 64) +:+ percent (128 + n mod 64).

Fixpoint encodeURIComponent (s : string) : string :=
  match s with
  | EmptyString => EmptyString
  | String c rest => encode_unit c +:+ encodeURIComponent rest
  end.

End Url.

Definition PUBCHEM_BASE_URL : string :=
  "https://pubchem.ncbi.nlm.nih.gov/rest/pug".

Definition CONCURRENCY_LIMIT : nat := 5.

(** The double-quote character of the image formula. *)
Definition dquote : string := String (ascii_of_nat 34) EmptyString.

(** ** [getCompoundByCas] (lines 78-121) *)

(** JavaScript truthiness of a number that may be [undefined]
    (an integer is falsy exactly when it is 0). *)
Definition truthy_number (n : option Z) : bool :=
  match n with
  | Some z => negb (z =? 0)%Z
  | None => false
  end.

(** [searchData.IdentifierList?.CID?.[0]]: [undefined] as soon as one
    level is missing or the array is empty. *)
Definition first_CID (searchData : JsonObject) : option Z :=
  (IdentifierList searchData ≫= CID) ≫= head.

(** [propsData.PropertyTable?.Properties?.[0]] *)
Definition first_Properties (propsData : JsonObject) : option Properties_t :=
  (PropertyTable propsData ≫= Properties) ≫= head.

Section GetCompoundByCas.
Variable upstream : Upstream.

Definition searchUrl (casNumber : string) : string :=
  PUBCHEM_BASE_URL +:+ "/compound/name/" +:+
  Url.encodeURIComponent casNumber +:+ "/cids/JSON".

Definition propsUrl (cid : Z) : string :=
  PUBCHEM_BASE_URL +:+ "/compound/cid/" +:+ Str.of_Z cid +:+
  "/property/IUPACName,Title,MolecularFormula,CanonicalSMILES/JSON".

Definition structureImageUrl (cid : Z) : string :=
  "=IMAGE(" +:+ dquote +:+
  "https://pubchem.ncbi.nlm.nih.gov/rest/pug/compound/cid/" +:+
  Str.of_Z cid +:+ "/PNG" +:+ dquote +:+ ")".

(** The [try] block. *)
Definition getCompoundByCas_try (casNumber : string) : M LookupResult :=
  (* Step 1: Search for compound by CAS number to get CID *)
  let* searchResponse := fetchWithRetry upstream (searchUrl casNumber) in
  let* searchData := response_json searchResponse in
  let cid := first_CID searchData in
  if negb (truthy_number cid) then
    ret {| data := None;
           error := Some "No compound found for this CAS number" |}
  else
    let cid := default 0%Z cid in
    (* Step 2: Get compound properties *)
    let* propsResponse := fetchWithRetry upstream (propsUrl cid) in
    let* propsData := response_json propsResponse in
    match first_Properties propsData with
    | None =>
        ret {| data := None;
               error := Some "Could not retrieve compound properties" |}
    | Some props =>
        ret {| data := Some {|
                 ChemicalData.chemical_name :=
                   Str.or_default (Str.or (Title props) (IUPACName props))
                                  EmptyString;
                 ChemicalData.smiles_code :=
                   Str.or_default (Str.or (CanonicalSMILES props)
                                          (ConnectivitySMILES props))
                                  EmptyString;
                 ChemicalData.molecular_formula :=
                   Str.or_default (MolecularFormula props) EmptyString;
                 ChemicalData.structure_image_url := structureImageUrl cid;
               |};
               error := None |}
    end.

(** The [catch] block:
    [error instanceof Error ? error.message : "Unknown error occurred"]. *)
Definition getCompoundByCas_catch (error : thrown) : M LookupResult :=
  let errorMessage :=
    match error with
    | ThrownError message => message
    | ThrownOther => "Unknown error occurred"
    end in
  ret {| data := None; error := Some errorMessage |}.

Definition getCompoundByCas (casNumber : string) : M LookupResult :=
  try_catch (getCompoundByCas_try casNumber) getCompoundByCas_catch.
End GetCompoundByCas.

(** ** [readCasNumbersFromCsv] (lines 123-141) *)

Module Csv.

(** White space of [String.prototype.trim] among the code units 0..255:
    tab, line feed, vertical tab, form feed, carriage return, space and
    no-break space. *)
Definition is_white_space (c : ascii) : bool :=
  bool_decide (nat_of_ascii c ∈ [9; 10; 11; 12; 13; 32; 160]).

Fixpoint trim_start (s : string) : string :=
  match s with
  | EmptyString => EmptyString
  | String c rest => if is_white_space c then trim_start rest else s
  end.

Definition trim (s : string) : string :=
  String.rev (trim_start (String.rev (trim_start s))).

(** The column names the reader recognises, in the order it tries them. *)
Definition recognised_columns : list string :=
  ["cas_number"; "CAS"; "cas"; "CAS Number"].

(** [records] is what [parse(fileContent, { columns: true,
    skip_empty_lines: true, trim: true })] returned: one object per data
    line, from column name to cell.  With [trim: true] the parser removes
    the white space around a cell, not the white space inside a quoted
    cell, so a cell may still begin or end with white space, or hold
    nothing else. *)
Definition readCasNumbersFromCsv (records : list (gmap string string))
  : list string :=
  foldl
    (fun casNumbers record =>
       let casNumber :=
         Str.or (Str.or (Str.or (record !! "cas_number") (record !! "CAS"))
                        (record !! "cas"))
                (record !! "CAS Number") in
       if Str.truthy_opt casNumber
       then casNumbers ++ [trim (default EmptyString casNumber)]
       else casNumbers)
    [] records.

(** What one turn of the loop keeps of a row: the first recognised cell
    that is present and not empty, trimmed. *)
Definition filled_cell (record : gmap string string) (column : string)
  : option string :=
  match record !! column with
  | Some v => if Str.is_empty v then None else Some v
  | None => None
  end.

Definition kept_of_row (record : gmap string string) : option string :=
  trim <$> head (omap (filled_cell record) recognised_columns).

(** The reader as the specification words it: per row, the first
    recognised column, in priority order, whose value is not empty after
    trimming; that trimmed value is the identifier; a row without such a
    column is skipped. *)
Definition non_empty_after_trimming (record : gmap string string)
           (column : string) : option string :=
  match record !! column with
  | Some v => if Str.is_empty (trim v) then None else Some (trim v)
  | None => None
  end.

Definition identifier_of_row (record : gmap string string) : option string :=
  head (omap (non_empty_after_trimming record) recognised_columns).

Definition identifiers_spec (records : list (gmap string string))
  : list string :=
  omap identifier_of_row records.

(** Records in which no cell has white space at either end (what the
    parser delivers when no cell is quoted around white space). *)
Definition trimmed_cells (record : gmap string string) : Prop :=
  map_Forall (fun _ v => trim v = v) record.

#[global] Instance trimmed_cells_dec record : Decision (trimmed_cells record).
Proof. unfold trimmed_cells. apply _. Defined.

End Csv.

(** ** [processInParallel] (lines 161-182) *)

(** What awaiting a promise gives once the schedule is over. *)
Inductive Outcome (A : Type) :=
| Pending
| Fulfilled (a : A)
| Failed (e : thrown).
Arguments Pending {A}.
Arguments Fulfilled {A} a.
Arguments Failed {A} e.

(** [array[index] = value] on a JavaScript array that may have holes: inside
    the array the cell is overwritten, beyond its end the array grows and
    the cells in between are holes. *)
Definition array_set {A} (array : list (option A)) (index : nat) (value : A)
  : list (option A) :=
  if decide (index < length array)
  then <[index := Some value]> array
  else array ++ replicate (index - length array) None ++ [Some value].

Module Pool.
Section ProcessInParallel.
Context {T R : Type}.
Variable items : list T.
Variable processor : T -> nat -> Result R.
Variable concurrency : nat.

(** The variables the workers share: the cursor, the result array, and
  (for the statements only) the indices handed to [processor] so far,
  in the order of the calls. *)
Record shared := {
currentIndex : nat;
results : list (option R);
started : list nat;
}.

(** One call of [worker()]: suspended at its [await] on the promise of
  [processor(items[index], index)], returned, or thrown. *)
Inductive worker :=
| Awaiting (index : nat) (promise : Result R)
| Resolved
| Rejected (e : thrown).

(** From the loop test to the next suspension.  The test
  [currentIndex < items.length] holds exactly when [items] has a cell
  at [currentIndex]; [const index = currentIndex++] and the call of
  [processor] follow without interruption. *)
Definition worker_loop (s : shared) : worker * shared :=
match items !! currentIndex s with
| Some item =>
    let index := currentIndex s in
    (Awaiting index (processor item index),
     {| currentIndex := S index;
        results := results s;
        started := started s ++ [index] |})
| None => (Resolved, s)
end.

(** The worker wakes up with the settled promise:
  [results[index] = await ...], then the loop again; a rejected
  promise makes the [await] throw out of the worker. *)
Definition worker_resume (index : nat) (promise : Result R) (s : shared)
: worker * shared :=
match promise with
| Value r =>
    worker_loop {| currentIndex := currentIndex s;
                   results := array_set (results s) index r;
                   started := started s |}
| Raise e => (Rejected e, s)
end.

Definition pool : Type := shared * list worker.

(** [Array(k).fill(null).map(() => worker())]: the workers are started one
  after the other, each running up to its first [await]. *)
Fixpoint spawn (k : nat) (s : shared) : pool :=
match k with
| O => (s, [])
| S k' =>
    let '(w, s1) := worker_loop s in
    let '(s2, ws) := spawn k' s1 in
    (s2, w :: ws)
end.

Definition start : pool :=
spawn (Nat.min concurrency (length items))
      {| currentIndex := 0;
         results := replicate (length items) None;
         started := [] |}.

(** The event loop resumes worker [w] because the promise it awaits has
  settled.  A worker that awaits nothing is left alone. *)
Definition settle (w : nat) (p : pool) : pool :=
match p.2 !! w with
| Some (Awaiting index promise) =>
    let '(w', s') := worker_resume index promise p.1 in
    (s', <[w := w']> p.2)
| _ => p
end.

Definition run (sched : list nat) (p : pool) : pool :=
foldl (fun p w => settle w p) p sched.

Definition is_awaiting (w : worker) : bool :=
match w with Awaiting _ _ => true | _ => false end.

Definition is_resolved (w : worker) : bool :=
match w with Resolved => true | _ => false end.

Definition rejection (w : worker) : option thrown :=
match w with Rejected e => Some e | _ => None end.

(** The number of calls of [processor] that have not settled yet. *)
Definition in_flight (p : pool) : nat := length (filter is_awaiting p.2).

(** [Promise.all(workers)] followed by [return results]. *)
Definition promise_all (p : pool) : Outcome (list (option R)) :=
match head (omap rejection p.2) with
| Some e => Failed e
| None => if forallb is_resolved p.2 then Fulfilled (results p.1)
          else Pending
end.

(** [await Promise.all(workers)] under a schedule: the order in which the
  awaited promises settle.  It is over at the first rejection or when
  every worker has returned. *)
Fixpoint await_all (sched : list nat) (p : pool)
: Outcome (list (option R)) :=
match promise_all p with
| Pending =>
    match sched with
    | [] => Pending
    | w :: sched' => await_all sched' (settle w p)
    end
| settled => settled
end.

Definition processInParallel (sched : list nat)
: Outcome (list (option R)) :=
await_all sched start.
End ProcessInParallel.
End Pool.

(** ** [processChemicals] (lines 184-236) *)

(** What [processChemicals] hands to [writeResultsToCsv] and prints at the
    end. *)
Record Report := {
  written : list (option OutputRow.t);
  successCount : nat;
  elapsed_ms : Z;
}.

Section ProcessChemicals.
(** [responses index] is the upstream service as the lookup of the
    identifier at [index] sees it. *)
Variable responses : nat -> Upstream.

(** The arrow function passed to [processInParallel] (lines 197-224). *)
Definition processor_body (upstream : Upstream) (total : nat)
           (casNumber : string) (index : nat) : M OutputRow.t :=
  console_log ("Processing " +:+ Str.of_nat (index + 1) +:+ "/" +:+
               Str.of_nat total +:+ ": " +:+ casNumber) ;;
  let* result := getCompoundByCas upstream casNumber in
  match data result with
  | Some data =>
      ret {| OutputRow.cas_number := casNumber;
             OutputRow.chemical_name := ChemicalData.chemical_name data;
             OutputRow.smiles_code := ChemicalData.smiles_code data;
             OutputRow.molecular_formula :=
               ChemicalData.molecular_formula data;
             OutputRow.structure_image_url :=
               ChemicalData.structure_image_url data;
             OutputRow.status := "success";
             OutputRow.error := None |}
  | None =>
      ret {| OutputRow.cas_number := casNumber;
             OutputRow.chemical_name := EmptyString;
             OutputRow.smiles_code := EmptyString;
             OutputRow.molecular_formula := EmptyString;
             OutputRow.structure_image_url := EmptyString;
             OutputRow.status := "failed";
             OutputRow.error :=
               Some (Str.or_default (error result) "Unknown error") |}
  end.

(** The promise the arrow function returns, settled. *)
Definition processor (total : nat) (casNumber : string) (index : nat)
  : Result OutputRow.t :=
  (processor_body (responses index) total casNumber index Session0).1.

Definition is_success (row : OutputRow.t) : bool :=
  bool_decide (OutputRow.status row = "success").

(** [records] is the parsed input file, [sched] the order in which the
    lookups complete, [startTime] and [endTime] the two readings of
    [Date.now()]. *)
Definition processChemicals (records : list (gmap string string))
           (sched : list nat) (startTime endTime : Z) : Outcome Report :=
  let casNumbers := Csv.readCasNumbersFromCsv records in
  match Pool.processInParallel casNumbers
          (processor (length casNumbers)) CONCURRENCY_LIMIT sched with
  | Fulfilled results =>
      Fulfilled {| written := results;
                   successCount :=
                     length (filter (fun r => is_success r = true)
                                    (omap id results));
                   elapsed_ms := (endTime - startTime)%Z |}
  | Failed e => Failed e
  | Pending => Pending
  end.
End ProcessChemicals.

(** ** Notions used in the statements *)

Definition is_request (ev : Event) : bool :=
  match ev with Requested _ => true | _ => false end.

Fixpoint request_count (evs : list Event) : nat :=
  match evs with
  | [] => 0
  | ev :: evs' => (if is_request ev then 1 else 0) + request_count evs'
  end.

(** The session after one more request for [url]. *)
Definition asked (url : string) (s : Session) : Session :=
  {| requests := S (requests s); history := history s ++ [Requested url] |}.

(** A status on which the loop goes round again. *)
Definition retried (r : Response) : bool :=
  ((status r =? 503) || (status r =? 429))%Z.

(** An upstream that answers the [n]-th request with the [n]-th outcome of
    a script, and with a network failure once the script is over. *)
Definition scripted (script : list FetchOutcome) : Upstream :=
  fun n _ => default (FetchRejects (ThrownError "fetch failed")) (script !! n).

(** A response with a status and a body. *)
Definition reply (code : Z) (body : JsonOutcome) : FetchOutcome :=
  FetchResolves {| status := code; statusText := EmptyString; json := body |}.

Definition no_body : JsonOutcome :=
  JsonRejects (ThrownError "Unexpected end of JSON input").

(** The body of a name-to-ID answer listing [cids]. *)
Definition cids_body (cids : list Z) : JsonOutcome :=
  JsonResolves {| IdentifierList := Some {| CID := Some cids |};
                  PropertyTable := None |}.

(** The body of a properties answer with the records [props]. *)
Definition props_body (props : list Properties_t) : JsonOutcome :=
  JsonResolves {| IdentifierList := None;
                  PropertyTable := Some {| Properties := Some props |} |}.

(** The two failures [getCompoundByCas] reports itself. *)
Definition no_compound_found : LookupResult :=
  {| data := None; error := Some "No compound found for this CAS number" |}.

Definition no_properties : LookupResult :=
  {| data := None; error := Some "Could not retrieve compound properties" |}.

(** The message the [catch] block takes from a thrown value. *)
Definition message_of (e : thrown) : string :=
  match e with
  | ThrownError message => message
  | ThrownOther => "Unknown error occurred"
  end.

(** "The first available of ..., else the empty string", as the
    specification words it: the first candidate that is present and not
    empty. *)
Definition available (candidate : option string) : option string :=
  match candidate with
  | Some v => if Str.is_empty v then None else Some v
  | None => None
  end.

Definition first_available (candidates : list (option string)) : string :=
  default EmptyString (head (omap available candidates)).

(** The image formula as the specification gives it, with the compound id
    in decimal. *)
Definition image_formula (cid : Z) : string :=
  "=IMAGE(" +:+ dquote +:+
  "https://pubchem.ncbi.nlm.nih.gov/rest/pug/compound/cid/" +:+
  Str.of_Z cid +:+ "/PNG" +:+ dquote +:+ ")".

(** A property record and two scripts used as examples. *)
Definition formaldehyde : Properties_t :=
  {| Properties_CID := 712;
     IUPACName := Some "formaldehyde";
     Title := Some "Formaldehyde";
     MolecularFormula := Some "CH2O";
     CanonicalSMILES := None;
     ConnectivitySMILES := Some "C=O" |}.

Definition formaldehyde_found : Upstream :=
  scripted [reply 200 (cids_body [712; 713]%Z);
            reply 200 (props_body [formaldehyde])].

(** The scenario of the specification: two identifiers, the first found,
    the second without a compound id upstream; and a third lookup whose
    request fails on the network. *)
Definition scenario_records : list (gmap string string) :=
  [ {[ "cas_number" := "50-00-0" ]};
    {[ "cas_number" := "0000-00-0" ]};
    {[ "CAS" := "64-17-5" ]} ].

Definition scenario_responses (index : nat) : Upstream :=
  match index with
  | 0 => formaldehyde_found
  | 1 => scripted [reply 200 (cids_body [])]
  | _ => scripted []
  end.

(** ** The state of the worker pool between two resumptions *)

Section PoolInvariant.
Context {T R : Type}.
Variable items : list T.
(** The value the promise of [processor(item, index)] resolves to. *)
Variable f : T -> nat -> R.
Variable concurrency : nat.

(** The results of the items, each at the index of its item. *)
Definition values : list (option R) :=
  Some <$> imap (fun index item => f item index) items.

Record pool_invariant (p : Pool.pool) : Prop := {
  inv_cursor : Pool.currentIndex p.1 <= length items;
  inv_started : Pool.started p.1 = seq 0 (Pool.currentIndex p.1);
  inv_length : length (Pool.results p.1) = length items;
  inv_workers : length p.2 = Nat.min concurrency (length items);
  (* a worker awaits the promise of an index already claimed *)
  inv_awaiting : forall w i promise,
      p.2 !! w = Some (Pool.Awaiting i promise) ->
      i < Pool.currentIndex p.1 /\
      exists item, items !! i = Some item /\ promise = Value (f item i);
  (* no two workers await the same index *)
  inv_distinct : forall w1 w2 i promise1 promise2,
      p.2 !! w1 = Some (Pool.Awaiting i promise1) ->
      p.2 !! w2 = Some (Pool.Awaiting i promise2) -> w1 = w2;
  (* a claimed index that nobody awaits has its result in its cell *)
  inv_done : forall i item,
      items !! i = Some item -> i < Pool.currentIndex p.1 ->
      (forall w promise, p.2 !! w <> Some (Pool.Awaiting i promise)) ->
      Pool.results p.1 !! i = Some (Some (f item i));
  (* a worker returns only when the cursor has passed the last item *)
  inv_resolved : forall w,
      p.2 !! w = Some Pool.Resolved ->
      length items <= Pool.currentIndex p.1;
  inv_no_rejection : forall w e, p.2 !! w <> Some (Pool.Rejected e);
}.

(** Items not yet claimed plus calls not yet settled. *)
Definition remaining (p : Pool.pool (R:=R)) : nat :=
  (length items - Pool.currentIndex p.1) + Pool.in_flight p.
End PoolInvariant.

(** ** The rows of a run *)

(** What a lookup resolves to, read off its [try] block: the value the
    block returns, or the failure made of what it throws. *)
Definition lookup_result (upstream : Upstream) (casNumber : string)
           (s : Session) : LookupResult :=
  match getCompoundByCas_try upstream casNumber s with
  | (Value result, _) => result
  | (Raise e, _) => {| data := None; error := Some (message_of e) |}
  end.

(** An output row, as the specification describes it: the identifier with
    its lookup result flattened; fields that do not apply are empty. *)
Definition row_of (casNumber : string) (result : LookupResult)
  : OutputRow.t :=
  match data result with
  | Some record =>
      {| OutputRow.cas_number := casNumber;
         OutputRow.chemical_name := ChemicalData.chemical_name record;
         OutputRow.smiles_code := ChemicalData.smiles_code record;
         OutputRow.molecular_formula := ChemicalData.molecular_formula record;
         OutputRow.structure_image_url :=
           ChemicalData.structure_image_url record;
         OutputRow.status := "success";
         OutputRow.error := None |}
  | None =>
      {| OutputRow.cas_number := casNumber;
         OutputRow.chemical_name := EmptyString;
         OutputRow.smiles_code := EmptyString;
         OutputRow.molecular_formula := EmptyString;
         OutputRow.structure_image_url := EmptyString;
         OutputRow.status := "failed";
         OutputRow.error :=
           Some (first_available [error result; Some "Unknown error"]) |}
  end.

(** The line the arrow function prints before it starts a lookup. *)
Definition progress_line (total : nat) (casNumber : string) (index : nat)
  : string :=
  "Processing " +:+ Str.of_nat (index + 1) +:+ "/" +:+ Str.of_nat total
  +:+ ": " +:+ casNumber.

(** The row of the identifier at [index], from the responses its lookup
    receives. *)
Definition lookup_row (responses : nat -> Upstream) (total : nat)
           (casNumber : string) (index : nat) : OutputRow.t :=
  row_of casNumber
         (lookup_result (responses index) casNumber
            (record (Printed (progress_line total casNumber index))
                    Session0)).

(** The two shapes of a lookup result. *)
Definition is_success_result (result : LookupResult) : Prop :=
  exists record, result = {| data := Some record; error := None |}.

Definition is_failure_result (result : LookupResult) : Prop :=
  exists message, result = {| data := None; error := Some message |}.

(** The two shapes of an output row. *)
Definition is_success_row (row : OutputRow.t) : Prop :=
  OutputRow.status row = "success" /\ OutputRow.error row = None.

Definition is_failed_row (row : OutputRow.t) : Prop :=
  OutputRow.status row = "failed" /\
  (exists message, OutputRow.error row = Some message) /\
  OutputRow.chemical_name row = EmptyString /\
  OutputRow.smiles_code row = EmptyString /\
  OutputRow.molecular_formula row = EmptyString /\
  OutputRow.structure_image_url row = EmptyString.

(** Two sessions are equal when their counters and histories are. *)
Ltac same_session :=
  unfold asked, record; cbn [requests history]; rewrite <- ?app_assoc;
  repeat (f_equal; try lia); try reflexivity.

(** ** Notions for the further properties *)

(** The pauses of a history: how many, and their total in milliseconds. *)
Fixpoint pause_count (evs : list Event) : nat :=
  match evs with
  | [] => 0
  | Slept _ :: evs' => S (pause_count evs')
  | _ :: evs' => pause_count evs'
  end.

Fixpoint total_pause (evs : list Event) : Z :=
  match evs with
  | [] => 0
  | Slept ms :: evs' => ms + total_pause evs'
  | _ :: evs' => total_pause evs'
  end.

(** Events that are requests or pauses (nothing printed). *)
Definition is_network_event (ev : Event) : bool :=
  match ev with Printed _ => false | _ => true end.

(** What the worker pool keeps whatever the promises of the processor do
    (resolve or reject). *)
Record pool_bounds {T R : Type} (items : list T) (concurrency : nat)
       (p : Pool.pool (R:=R)) : Prop := {
  bounds_cursor : Pool.currentIndex p.1 <= length items;
  bounds_started : Pool.started p.1 = seq 0 (Pool.currentIndex p.1);
  bounds_length : length (Pool.results p.1) = length items;
  bounds_workers : length p.2 = Nat.min concurrency (length items);
  bounds_awaiting : forall w i promise,
      p.2 !! w = Some (Pool.Awaiting i promise) -> i < Pool.currentIndex p.1;
  bounds_distinct : forall w1 w2 i promise1 promise2,
      p.2 !! w1 = Some (Pool.Awaiting i promise1) ->
      p.2 !! w2 = Some (Pool.Awaiting i promise2) -> w1 = w2;
  (* the cell of an index not yet claimed, or still awaited, is a hole *)
  bounds_holes : forall i,
      i < length items ->
      Pool.currentIndex p.1 <= i \/
      (exists w promise, p.2 !! w = Some (Pool.Awaiting i promise)) ->
      Pool.results p.1 !! i = Some None;
}.

(** A test on every code unit of a string. *)
Fixpoint string_forallb (P : ascii -> bool) (s : string) : bool :=
  match s with
  | EmptyString => true
  | String c rest => P c && string_forallb P rest
  end.

(** The code units [encodeURIComponent] leaves alone. *)
Definition is_unreserved (c : ascii) : bool := Url.unreserved (nat_of_ascii c).

(** The code units an encoded component is made of: the unreserved ones and
    the percent sign (the hexadecimal digits are unreserved). *)
Definition is_component_unit (c : ascii) : bool :=
  is_unreserved c || bool_decide (c = "%"%char).

(** Reading back an encoded component: [%XX] is one byte; a byte from 192
    on is the first of a two-byte UTF-8 sequence. *)
Definition hex_value (c : ascii) : nat :=
  let n := nat_of_ascii c in
  if ((48 <=? n) && (n <=? 57))%nat then n - 48
  else if ((65 <=? n) && (n <=? 70))%nat then n - 55
  else 0.

Fixpoint decode_component (s : string) : string :=
  match s with
  | EmptyString => EmptyString
  | String c rest =>
      if bool_decide (c = "%"%char) then
        match rest with
        | String h1 (String l1 rest1) =>
            let b1 := 16 * hex_value h1 + hex_value l1 in
            if (b1 <? 128)%nat
            then String (ascii_of_nat b1) (decode_component rest1)
            else
              match rest1 with
              | String _ (String h2 (String l2 rest2)) =>
                  let b2 := 16 * hex_value h2 + hex_value l2 in
                  String (ascii_of_nat ((b1 - 192) * 64 + (b2 - 128)))
                         (decode_component rest2)
              | _ => EmptyString
              end
        | _ => EmptyString
        end
      else String c (decode_component rest)
  end.

(** A string that does not begin, or does not end, with white space. *)
Definition starts_clean (s : string) : Prop :=
  match s with
  | EmptyString => True
  | String c _ => Csv.is_white_space c = false
  end.

Definition ends_clean (s : string) : Prop := starts_clean (String.rev s).

(** Two records with the same cells in the columns the reader recognises. *)
Definition same_recognised_cells (record1 record2 : gmap string string)
  : Prop :=
  forall column, column ∈ Csv.recognised_columns ->
                 record1 !! column = record2 !! column.

(** ** Numbers and their decimal numerals *)

(** The integers a JavaScript number holds exactly, which a template
    literal prints as their plain decimal numeral: those of magnitude at
    most [Number.MAX_SAFE_INTEGER], 2^53 - 1.  (HTTP statuses and PubChem
    compound ids are such integers.) *)
Definition safe_integer (z : Z) : Prop :=
  (- (2 ^ 53 - 1) <= z <= 2 ^ 53 - 1)%Z.

(** ** The events of a retried request *)


(** * Properties *)

(** ** The helpers on strings, evaluated *)

Example of_Z_examples :
  Str.of_Z 0 = "0" /\ Str.of_Z 712 = "712" /\ Str.of_Z (-5) = "-5" /\
  Str.of_nat 10 = "10".
Proof. repeat split. Qed.

Example encodeURIComponent_examples :
  Url.encodeURIComponent "50-00-0" = "50-00-0" /\
  Url.encodeURIComponent "a b/c?d" = "a%20b%2Fc%3Fd" /\
  Url.encodeURIComponent (String (ascii_of_nat 233) EmptyString) = "%C3%A9".
Proof. repeat split. Qed.

Example trim_examples :
  Csv.trim "  64-17-5 " = "64-17-5" /\ Csv.trim "a b" = "a b" /\
  Csv.trim "   " = EmptyString /\
  Csv.trim (String (ascii_of_nat 9) (String "x" (String (ascii_of_nat 160)
                                                        EmptyString))) = "x".
Proof. repeat split. Qed.

Example replace_csv_suffix_examples :
  Cli.replace_csv_suffix "/a/foo.csv" = "/a/foo_results.csv" /\
  Cli.replace_csv_suffix "/a/foo.CSV" = "/a/foo_results.csv" /\
  Cli.replace_csv_suffix "/a/foo.csv.bak" = "/a/foo.csv.bak" /\
  Cli.replace_csv_suffix "/a/foocsv" = "/a/foocsv" /\
  Cli.replace_csv_suffix ".csv" = "_results.csv".
Proof. repeat split. Qed.

Example image_formula_example :
  String.length (image_formula 712) = 72 /\
  String.get 7 (image_formula 712) = Some (ascii_of_nat 34) /\
  String.substring 8 62 (image_formula 712)
  = "https://pubchem.ncbi.nlm.nih.gov/rest/pug/compound/cid/712/PNG" /\
  String.substring 70 2 (image_formula 712) = dquote +:+ ")".
Proof. repeat split. Qed.

(** A 404 fails at once, without a pause. *)
Example not_found_is_immediate :
  fetchWithRetry (scripted [reply 404 no_body]) "u" Session0
  = (Raise (ThrownError "Compound not found in PubChem"),
     {| requests := 1; history := [Requested "u"] |}).
Proof. reflexivity. Qed.

(** A status that is neither 2xx, 503, 429 nor 404 fails at once with the
    status in the message. *)
Example server_error_is_immediate :
  fetchWithRetry
    (scripted [FetchResolves {| status := 500;
                                statusText := "Internal Server Error";
                                json := no_body |}]) "u" Session0
  = (Raise (ThrownError "HTTP 500: Internal Server Error"),
     {| requests := 1; history := [Requested "u"] |}).
Proof. reflexivity. Qed.

(** ** The default output path *)

Section CliFacts.
Import Cli.

Lemma string_length_app (a b : string) :
  String.length (a +:+ b) = String.length a + String.length b.
Proof. induction a as [|c a IH]; simpl; [reflexivity|]. now rewrite IH. Qed.

Lemma matches_csv_here_length s :
  matches_csv_here s = true -> String.length s = 4.
Proof.
  destruct s as [|c0 [|c1 [|c2 [|c3 [|c4 s]]]]]; simpl; try discriminate.
  reflexivity.
Qed.

Lemma char_matches_i_spec (lower upper c : ascii) :
  (lower, upper) ∈ [("."%char, "."%char); ("c"%char, "C"%char);
                    ("s"%char, "S"%char); ("v"%char, "V"%char)] ->
  char_matches_i lower c = true <-> c = lower \/ c = upper.
Proof.
  intros Hin.
  assert (Hcase : forall c', char_matches_i lower c' =
            bool_decide (c' = lower) || bool_decide (c' = upper)).
  { intros c'. apply list_elem_of_In in Hin. simpl in Hin.
    destruct Hin as [E|[E|[E|[E|[]]]]]; inversion E; subst; clear E;
      destruct c' as [[] [] [] [] [] [] [] []]; reflexivity. }
  rewrite Hcase, orb_true_iff, !bool_decide_eq_true. reflexivity.
Qed.

(** The strings the pattern matches: a dot, then the letters c, s, v in
    either case. *)
Lemma matches_csv_here_spec ext :
  matches_csv_here ext = true <->
  exists c s v, ext = String "." (String c (String s (String v EmptyString)))
    /\ (c = "c" \/ c = "C")%char /\ (s = "s" \/ s = "S")%char
    /\ (v = "v" \/ v = "V")%char.
Proof.
  split.
  - destruct ext as [|c0 [|c1 [|c2 [|c3 [|c4 s]]]]]; simpl; try discriminate.
    rewrite !andb_true_iff. intros [[[H0 H1] H2] H3].
    apply (char_matches_i_spec "." ".") in H0;
      [|apply list_elem_of_In; simpl; tauto].
    apply (char_matches_i_spec "c" "C") in H1;
      [|apply list_elem_of_In; simpl; tauto].
    apply (char_matches_i_spec "s" "S") in H2;
      [|apply list_elem_of_In; simpl; tauto].
    apply (char_matches_i_spec "v" "V") in H3;
      [|apply list_elem_of_In; simpl; tauto].
    exists c1, c2, c3. repeat split; try assumption.
    destruct H0 as [->| ->]; reflexivity.
  - intros (c & s & v & -> & Hc & Hs & Hv).
    destruct Hc as [->| ->], Hs as [->| ->], Hv as [->| ->]; reflexivity.
Qed.

Lemma replace_csv_suffix_app stem ext :
  matches_csv_here ext = true ->
  replace_csv_suffix (stem +:+ ext) = stem +:+ "_results.csv".
Proof.
  intros Hext. induction stem as [|c stem IH].
  - change (EmptyString +:+ ext) with ext.
    destruct ext; simpl in *; [discriminate|]. now rewrite Hext.
  - change (String c stem +:+ ext) with (String c (stem +:+ ext)).
    cbn [replace_csv_suffix].
    destruct (matches_csv_here (String c (stem +:+ ext))) eqn:Hm.
    + apply matches_csv_here_length in Hm.
      apply matches_csv_here_length in Hext.
      cbn [String.length] in Hm. rewrite string_length_app in Hm. lia.
    + now rewrite IH.
Qed.

Lemma replace_csv_suffix_none s :
  has_csv_suffix s = false -> replace_csv_suffix s = s.
Proof.
  induction s as [|c s IH]; [reflexivity|].
  cbn [has_csv_suffix replace_csv_suffix].
  intros [Hm Hs]%orb_false_elim. rewrite Hm. now rewrite IH.
Qed.

(** [has_csv_suffix] is "ends in [.csv], in any letter case". *)
Lemma has_csv_suffix_spec s :
  has_csv_suffix s = true <->
  exists stem ext, s = stem +:+ ext /\ matches_csv_here ext = true.
Proof.
  split.
  - induction s as [|c s IH]; [discriminate|].
    cbn [has_csv_suffix]. intros [Hm|Hs]%orb_true_iff.
    + exists EmptyString, (String c s). split; [reflexivity|assumption].
    + destruct (IH Hs) as (stem & ext & -> & Hext).
      exists (String c stem), ext. split; [reflexivity|assumption].
  - intros (stem & ext & -> & Hext). induction stem as [|c stem IH].
    + change (EmptyString +:+ ext) with ext.
      destruct ext; [discriminate|]. cbn [has_csv_suffix]. now rewrite Hext.
    + change (String c stem +:+ ext) with (String c (stem +:+ ext)).
      cbn [has_csv_suffix]. rewrite IH. apply orb_true_r.
Qed.
End CliFacts.

(** What [main] derives, in general: with an input path and no output
    path (absent, or the empty string), the output path is the resolved
    input path with a trailing [.csv], in any letter case, replaced by
    [_results.csv]; when the input path does not end in [.csv], it is the
    resolved input path itself. *)
Theorem default_output_path (path_resolve : string -> string)
        (args : list string) (arg0 : string) :
  args !! 0 = Some arg0 ->
  Str.truthy_opt (args !! 1) = false ->
  exists outputPath,
    Cli.main_paths path_resolve args = Some (path_resolve arg0, outputPath) /\
    (forall stem ext,
        path_resolve arg0 = stem +:+ ext ->
        Cli.matches_csv_here ext = true ->
        outputPath = stem +:+ "_results.csv") /\
    (Cli.has_csv_suffix (path_resolve arg0) = false ->
     outputPath = path_resolve arg0).
Proof.
  intros Harg0 Harg1. unfold Cli.main_paths. rewrite Harg0, Harg1.
  eexists. split; [reflexivity|]. split.
  - intros stem ext -> Hext. now apply replace_csv_suffix_app.
  - apply replace_csv_suffix_none.
Qed.

Lemma default_output_path_witness :
  Cli.main_paths (String.app "/work/") ["foo.csv"]
  = Some ("/work/foo.csv", "/work/foo_results.csv").
Proof.
  destruct (default_output_path (String.app "/work/") ["foo.csv"] "foo.csv"
              eq_refl eq_refl) as (outputPath & -> & Hcsv & _).
  rewrite (Hcsv "/work/foo" ".csv" eq_refl eq_refl). reflexivity.
Defined.

(** The replacement with the letters of the suffix spelled out: a dot
    followed by c, s, v, each in lower or upper case. *)
Lemma replace_csv_suffix_any_case (stem : string) (c s v : ascii) :
  (c = "c" \/ c = "C")%char -> (s = "s" \/ s = "S")%char ->
  (v = "v" \/ v = "V")%char ->
  Cli.replace_csv_suffix
    (stem +:+ String "." (String c (String s (String v EmptyString))))
  = stem +:+ "_results.csv".
Proof.
  intros Hc Hs Hv. apply replace_csv_suffix_app, matches_csv_here_spec.
  exists c, s, v. auto.
Qed.

(** C1.  The code departs from the claim on an input path that does not
    end in [.csv]: for [/data/compounds.txt] and no output path, the
    output path [main] derives is the input path itself, with neither
    [_results.csv] nor [.csv] appended, so the results are written over
    the input file.  On the sibling path, an input path that ends in
    [.csv] in any letter case, it derives the new [_results.csv] path the
    claim describes. *)
Theorem default_output_path_appends_nothing :
  Cli.has_csv_suffix "/data/compounds.txt" = false /\
  Cli.main_paths id ["/data/compounds.txt"]
  = Some ("/data/compounds.txt", "/data/compounds.txt") /\
  Cli.main_paths id ["/data/compounds.txt"]
  <> Some ("/data/compounds.txt", "/data/compounds.txt" +:+ "_results.csv") /\
  Cli.main_paths id ["/data/compounds.txt"]
  <> Some ("/data/compounds.txt", "/data/compounds.txt" +:+ ".csv") /\
  Cli.main_paths id ["/data/compounds.csv"]
  = Some ("/data/compounds.csv", "/data/compounds_results.csv") /\
  Cli.main_paths id ["/data/compounds.CSV"]
  = Some ("/data/compounds.CSV", "/data/compounds_results.csv") /\
  Cli.main_paths id ["/data/compounds.Csv"]
  = Some ("/data/compounds.Csv", "/data/compounds_results.csv").
Proof. repeat split; discriminate. Qed.

(** ** The retry policy of [fetchWithRetry] *)

Section RetryFacts.
Variable upstream : Upstream.
Variable url : string.

Lemma fetchWithRetry_loop_S delay k i s :
  fetchWithRetry_loop upstream url delay (S k) i s =
  match upstream (requests s) url with
  | FetchRejects e => (Raise e, asked url s)
  | FetchResolves r =>
      if ok r then (Value r, asked url s)
      else if retried r then
        fetchWithRetry_loop upstream url delay k (i + 1)%Z
          (record (Slept (delay * (i + 1))%Z) (asked url s))
      else if (status r =? 404)%Z then
        (Raise (ThrownError "Compound not found in PubChem"), asked url s)
      else
        (Raise (ThrownError ("HTTP " +:+ Str.of_Z (status r) +:+ ": "
                             +:+ statusText r)), asked url s)
  end.
Proof.
  cbn [fetchWithRetry_loop]. unfold bind at 1. unfold fetch, asked, retried.
  destruct (upstream (requests s) url) as [e|r]; [reflexivity|].
  destruct (ok r); [reflexivity|].
  destruct ((status r =? 503) || (status r =? 429))%Z; [reflexivity|].
  destruct (status r =? 404)%Z; reflexivity.
Qed.

(** What a call adds to the session: only requests for [url], at most
    [k] of them, the first event being a request. *)
Lemma fetchWithRetry_loop_history delay k i s :
  exists evs,
    history (fetchWithRetry_loop upstream url delay k i s).2
    = history s ++ evs /\
    requests (fetchWithRetry_loop upstream url delay k i s).2
    = requests s + request_count evs /\
    request_count evs <= k /\
    (forall u, Requested u ∈ evs -> u = url) /\
    (0 < k -> head evs = Some (Requested url)).
Proof.
  revert i s. induction k as [|k IH]; intros i s.
  - exists []. simpl. rewrite app_nil_r. repeat split; try lia.
    intros u Hu. inversion Hu.
  - rewrite fetchWithRetry_loop_S.
    assert (Hone : exists evs,
               history (asked url s) = history s ++ evs /\
               requests (asked url s)
               = requests s + request_count evs /\
               request_count evs <= S k /\
               (forall u, Requested u ∈ evs -> u = url) /\
               (0 < S k -> head evs = Some (Requested url))).
    { exists [Requested url]. simpl. repeat split; try lia.
      intros u Hu. apply list_elem_of_singleton in Hu. congruence. }
    destruct (upstream (requests s) url) as [e|r]; [exact Hone|].
    destruct (ok r); [exact Hone|].
    destruct (retried r).
    2:{ destruct (status r =? 404)%Z; exact Hone. }
    destruct (IH (i + 1)%Z
                (record (Slept (delay * (i + 1))%Z) (asked url s)))
      as (evs & Hh & Hr & Hl & Hu & _).
    exists (Requested url :: Slept (delay * (i + 1))%Z :: evs).
    rewrite Hh, Hr. simpl. rewrite <- !app_assoc. simpl.
    repeat split; try lia.
    intros u [E|[E|Hin]%elem_of_cons]%elem_of_cons; [congruence|discriminate|].
    now apply Hu.
Qed.
End RetryFacts.



Section RetryAttempts.
Variable upstream : Upstream.
Variable url : string.

End RetryAttempts.



(** ** One lookup: [getCompoundByCas] *)

(** [a || b || ""] is the first of [a], [b] that is present and not empty,
    and the empty string when there is none. *)
Lemma or_default_or (a b : option string) :
  Str.or_default (Str.or a b) EmptyString = first_available [a; b].
Proof.
  unfold first_available, available, Str.or_default, Str.or, Str.truthy_opt,
    Str.truthy.
  destruct a as [a|], b as [b|]; cbn;
    repeat match goal with
           | |- context [Str.is_empty ?v] =>
               destruct (Str.is_empty v) eqn:?; cbn
           end; congruence.
Qed.

Lemma or_default_one (a : option string) :
  Str.or_default a EmptyString = first_available [a].
Proof.
  unfold first_available, available, Str.or_default, Str.truthy.
  destruct a as [a|]; cbn; [|reflexivity].
  destruct (Str.is_empty a); reflexivity.
Qed.

Section LookupFacts.
Variable upstream : Upstream.
Variable casNumber : string.

(** The lookup, request by request. *)
Lemma getCompoundByCas_try_unfold s :
  getCompoundByCas_try upstream casNumber s =
  match fetchWithRetry upstream (searchUrl casNumber) s with
  | (Raise e, s1) => (Raise e, s1)
  | (Value searchResponse, s1) =>
      match json searchResponse with
      | JsonRejects e => (Raise e, s1)
      | JsonResolves searchData =>
          match first_CID searchData with
          | None => (Value no_compound_found, s1)
          | Some cid =>
              if (cid =? 0)%Z then (Value no_compound_found, s1)
              else
                match fetchWithRetry upstream (propsUrl cid) s1 with
                | (Raise e, s2) => (Raise e, s2)
                | (Value propsResponse, s2) =>
                    match json propsResponse with
                    | JsonRejects e => (Raise e, s2)
                    | JsonResolves propsData =>
                        match first_Properties propsData with
                        | None => (Value no_properties, s2)
                        | Some props =>
                            (Value
                               {| data := Some {|
                                    ChemicalData.chemical_name :=
                                      first_available
                                        [Title props; IUPACName props];
                                    ChemicalData.smiles_code :=
                                      first_available
                                        [CanonicalSMILES props;
                                         ConnectivitySMILES props];
                                    ChemicalData.molecular_formula :=
                                      first_available
                                        [MolecularFormula props];
                                    ChemicalData.structure_image_url :=
                                      image_formula cid |};
                                  error := None |}, s2)
                        end
                    end
                end
          end
      end
  end.
Proof.
  unfold getCompoundByCas_try. unfold bind at 1.
  destruct (fetchWithRetry upstream (searchUrl casNumber) s)
    as [[searchResponse|e] s1]; [|reflexivity].
  unfold bind at 1, response_json at 1.
  destruct (json searchResponse) as [e|searchData]; [reflexivity|].
  unfold ret at 1.
  destruct (first_CID searchData) as [cid|]; [|reflexivity].
  cbn [truthy_number default]. rewrite negb_involutive.
  change (id cid) with cid.
  destruct (cid =? 0)%Z; [reflexivity|].
  unfold bind at 1.
  destruct (fetchWithRetry upstream (propsUrl cid) s1)
    as [[propsResponse|e] s2]; [|reflexivity].
  unfold bind at 1, response_json at 1.
  destruct (json propsResponse) as [e|propsData]; [reflexivity|].
  unfold ret at 1.
  destruct (first_Properties propsData) as [props|]; [|reflexivity].
  unfold ret. rewrite or_default_or, or_default_or, or_default_one.
  reflexivity.
Qed.
End LookupFacts.

Lemma getCompoundByCas_unfold upstream casNumber s :
  getCompoundByCas upstream casNumber s =
  match getCompoundByCas_try upstream casNumber s with
  | (Value result, s1) => (Value result, s1)
  | (Raise e, s1) =>
      (Value {| data := None; error := Some (message_of e) |}, s1)
  end.
Proof.
  unfold getCompoundByCas, try_catch.
  destruct (getCompoundByCas_try upstream casNumber s) as [[result|e] s1];
    [reflexivity|].
  destruct e; reflexivity.
Qed.

(** C5.  When the name-to-ID request succeeds and its answer holds no
    compound id, the lookup fails with "No compound found for this CAS
    number"; when it holds one and the properties request succeeds with an
    answer that holds no property record, the lookup fails with "Could not
    retrieve compound properties". *)
Theorem lookup_failure_messages (upstream : Upstream) (casNumber : string)
        (s s1 : Session) (searchResponse : Response)
        (searchData : JsonObject) :
  fetchWithRetry upstream (searchUrl casNumber) s
  = (Value searchResponse, s1) ->
  json searchResponse = JsonResolves searchData ->
  (first_CID searchData = None ->
   getCompoundByCas upstream casNumber s
   = (Value {| data := None;
               error := Some "No compound found for this CAS number" |}, s1))
  /\
  (forall cid propsResponse propsData s2,
      first_CID searchData = Some cid -> cid <> 0%Z ->
      fetchWithRetry upstream (propsUrl cid) s1 = (Value propsResponse, s2) ->
      json propsResponse = JsonResolves propsData ->
      first_Properties propsData = None ->
      getCompoundByCas upstream casNumber s
      = (Value {| data := None;
                  error := Some "Could not retrieve compound properties" |},
         s2)).
Proof.
  intros Hsearch Hjson. split.
  - intros Hcid.
    rewrite getCompoundByCas_unfold, getCompoundByCas_try_unfold.
    rewrite Hsearch, Hjson, Hcid. reflexivity.
  - intros cid propsResponse propsData s2 Hcid Hnz Hprops Hjson2 Hnone.
    rewrite getCompoundByCas_unfold, getCompoundByCas_try_unfold.
    rewrite Hsearch, Hjson, Hcid.
    apply Z.eqb_neq in Hnz. rewrite Hnz, Hprops, Hjson2, Hnone. reflexivity.
Qed.

(** C7.  Every lookup that succeeds has read a compound id [cid] that is
    not 0 and a property record [props], and its record holds: as name the
    first available of [Title], [IUPACName], else the empty string; as
    structure notation the first available of [CanonicalSMILES],
    [ConnectivitySMILES], else the empty string; as formula
    [MolecularFormula], else the empty string; as image reference, for an
    id that is a safe integer, the fixed formula around the URL of the PNG
    of [cid], the id in decimal.  "Available" is present and not empty. *)
Theorem successful_lookup_record (upstream : Upstream) (casNumber : string)
        (s s' : Session) (result : LookupResult) (record : ChemicalData.t) :
  getCompoundByCas upstream casNumber s = (Value result, s') ->
  data result = Some record ->
  exists searchResponse s1 searchData cid propsResponse propsData props,
    fetchWithRetry upstream (searchUrl casNumber) s
    = (Value searchResponse, s1) /\
    json searchResponse = JsonResolves searchData /\
    first_CID searchData = Some cid /\
    cid <> 0%Z /\
    fetchWithRetry upstream (propsUrl cid) s1 = (Value propsResponse, s') /\
    json propsResponse = JsonResolves propsData /\
    first_Properties propsData = Some props /\
    error result = None /\
    ChemicalData.chemical_name record
    = first_available [Title props; IUPACName props] /\
    ChemicalData.smiles_code record
    = first_available [CanonicalSMILES props; ConnectivitySMILES props] /\
    ChemicalData.molecular_formula record
    = first_available [MolecularFormula props] /\
    (safe_integer cid ->
     ChemicalData.structure_image_url record
     = "=IMAGE(" +:+ dquote +:+
       "https://pubchem.ncbi.nlm.nih.gov/rest/pug/compound/cid/" +:+
       NilZero.string_of_int (Z.to_int cid) +:+ "/PNG" +:+ dquote +:+ ")").
Proof.
  rewrite getCompoundByCas_unfold, getCompoundByCas_try_unfold.
  destruct (fetchWithRetry upstream (searchUrl casNumber) s)
    as [[searchResponse|e] s1]; [|intros [= <- <-]; discriminate].
  destruct (json searchResponse) as [e|searchData] eqn:Hjson;
    [intros [= <- <-]; discriminate|].
  destruct (first_CID searchData) as [cid|] eqn:Hcid;
    [|intros [= <- <-]; discriminate].
  destruct (cid =? 0)%Z eqn:Hzero; [intros [= <- <-]; discriminate|].
  destruct (fetchWithRetry upstream (propsUrl cid) s1)
    as [[propsResponse|e] s2] eqn:Hprops; [|intros [= <- <-]; discriminate].
  destruct (json propsResponse) as [e|propsData] eqn:Hjson2;
    [intros [= <- <-]; discriminate|].
  destruct (first_Properties propsData) as [props|] eqn:Hfirst;
    [|intros [= <- <-]; discriminate].
  intros [= <- <-] [= <-].
  exists searchResponse, s1, searchData, cid, propsResponse, propsData, props.
  apply Z.eqb_neq in Hzero.
  repeat split; try assumption; reflexivity.
Qed.

(** C10.  When the name-to-ID answer lists several compound ids, say
    [first :: others]: a first id equal to 0 gives "No compound found for
    this CAS number" without any further request; otherwise, for a first
    id that is a safe integer, what the lookup does next is request the
    properties of [first] (its decimal numeral in the URL), every request
    it still makes is for that URL, and the image reference of a record it
    builds names [first]; [others] is not read. *)
Theorem only_first_cid_used (upstream : Upstream) (casNumber : string)
        (s s1 : Session) (searchResponse : Response) (searchData : JsonObject)
        (identifiers : IdentifierList_t) (first : Z) (others : list Z) :
  fetchWithRetry upstream (searchUrl casNumber) s
  = (Value searchResponse, s1) ->
  json searchResponse = JsonResolves searchData ->
  IdentifierList searchData = Some identifiers ->
  CID identifiers = Some (first :: others) ->
  let out := getCompoundByCas upstream casNumber s in
  let propertiesOfFirst :=
    "https://pubchem.ncbi.nlm.nih.gov/rest/pug/compound/cid/" +:+
    NilZero.string_of_int (Z.to_int first) +:+
    "/property/IUPACName,Title,MolecularFormula,CanonicalSMILES/JSON" in
  let imageOfFirst :=
    "=IMAGE(" +:+ dquote +:+
    "https://pubchem.ncbi.nlm.nih.gov/rest/pug/compound/cid/" +:+
    NilZero.string_of_int (Z.to_int first) +:+ "/PNG" +:+ dquote +:+ ")" in
  (first = 0%Z ->
   out = (Value {| data := None;
                   error := Some "No compound found for this CAS number" |},
          s1)) /\
  (first <> 0%Z -> safe_integer first ->
   exists evs,
     history out.2 = history s1 ++ evs /\
     head evs = Some (Requested propertiesOfFirst) /\
     (forall url, Requested url ∈ evs -> url = propertiesOfFirst) /\
     (forall result record,
         out.1 = Value result -> data result = Some record ->
         ChemicalData.structure_image_url record = imageOfFirst)).
Proof.
  intros Hsearch Hjson Hlist Hcid out propertiesOfFirst imageOfFirst.
  subst out.
  assert (Hurl : propsUrl first = propertiesOfFirst) by reflexivity.
  assert (Himage : image_formula first = imageOfFirst) by reflexivity.
  clearbody propertiesOfFirst imageOfFirst.
  assert (Hfirst : first_CID searchData = Some first).
  { unfold first_CID. rewrite Hlist. cbn. rewrite Hcid. reflexivity. }
  rewrite getCompoundByCas_unfold, getCompoundByCas_try_unfold.
  rewrite Hsearch, Hjson, Hfirst. split.
  - intros ->. reflexivity.
  - intros Hnz _. apply Z.eqb_neq in Hnz. rewrite Hnz.
    destruct (fetchWithRetry_loop_history upstream (propsUrl first)
                1000 3 0 s1) as (evs & Hh & _ & _ & Hu & Hhead).
    fold (fetchWithRetry_with upstream (propsUrl first) 3 1000) in Hh.
    fold (fetchWithRetry upstream (propsUrl first)) in Hh.
    rewrite Hurl in Hu, Hhead. rewrite Himage.
    exists evs.
    destruct (fetchWithRetry upstream (propsUrl first) s1)
      as [[propsResponse|e] s2].
    2:{ cbn in *. repeat split; auto with lia.
        intros ? ? [= <-]. discriminate. }
    destruct (json propsResponse) as [e|propsData].
    { cbn in *. repeat split; auto with lia.
      intros ? ? [= <-]. discriminate. }
    destruct (first_Properties propsData) as [props|].
    2:{ cbn in *. repeat split; auto with lia.
        intros ? ? [= <-]. discriminate. }
    cbn in *. repeat split; auto with lia.
    intros ? ? [= <-] [= <-]. reflexivity.
Qed.

Lemma lookup_failure_messages_witness :
  (getCompoundByCas (scripted [reply 200 (cids_body [])]) "0000-00-0"
                    Session0).1
  = Value {| data := None;
             error := Some "No compound found for this CAS number" |} /\
  (getCompoundByCas
     (scripted [reply 200 (cids_body [712%Z]); reply 200 (props_body [])])
     "50-00-0" Session0).1
  = Value {| data := None;
             error := Some "Could not retrieve compound properties" |}.
Proof.
  split.
  - destruct (lookup_failure_messages
                (scripted [reply 200 (cids_body [])]) "0000-00-0"
                Session0 _ _ _ eq_refl eq_refl) as [H _].
    rewrite (H eq_refl). reflexivity.
  - destruct (lookup_failure_messages
                (scripted [reply 200 (cids_body [712%Z]);
                           reply 200 (props_body [])]) "50-00-0"
                Session0 _ _ _ eq_refl eq_refl) as [_ H].
    rewrite (H 712%Z _ _ _ eq_refl ltac:(discriminate) eq_refl eq_refl
               eq_refl).
    reflexivity.
Defined.

Lemma successful_lookup_record_witness :
  exists result s' record,
    getCompoundByCas formaldehyde_found "50-00-0" Session0
    = (Value result, s') /\
    data result = Some record /\
    error result = None /\
    ChemicalData.chemical_name record = "Formaldehyde" /\
    ChemicalData.smiles_code record = "C=O" /\
    ChemicalData.molecular_formula record = "CH2O" /\
    ChemicalData.structure_image_url record
    = "=IMAGE(" +:+ dquote +:+
      "https://pubchem.ncbi.nlm.nih.gov/rest/pug/compound/cid/712/PNG" +:+
      dquote +:+ ")".
Proof.
  eexists _, _, _. split; [reflexivity|]. split; [reflexivity|].
  destruct (successful_lookup_record formaldehyde_found "50-00-0" Session0
              _ _ _ eq_refl eq_refl)
    as (searchResponse & s1 & searchData & cid & propsResponse & propsData
        & props & Hsearch & Hjson & Hcid & _ & Hprops & Hjson2 & Hfirst
        & Herror & Hname & Hsmiles & Hformula & Himage).
  vm_compute in Hsearch. injection Hsearch as <- <-.
  vm_compute in Hjson. injection Hjson as <-.
  vm_compute in Hcid. injection Hcid as <-.
  vm_compute in Hprops. injection Hprops as <-.
  vm_compute in Hjson2. injection Hjson2 as <-.
  vm_compute in Hfirst. injection Hfirst as <-.
  rewrite Herror, Hname, Hsmiles, Hformula, Himage; [repeat split|].
  unfold safe_integer. lia.
Defined.

Lemma only_first_cid_used_witness :
  (exists evs,
      history (getCompoundByCas formaldehyde_found "50-00-0" Session0).2
      = [Requested (searchUrl "50-00-0")] ++ evs /\
      head evs
      = Some (Requested
                ("https://pubchem.ncbi.nlm.nih.gov/rest/pug/compound/cid/712"
                 +:+ "/property/IUPACName,Title,MolecularFormula,"
                 +:+ "CanonicalSMILES/JSON"))) /\
  getCompoundByCas (scripted [reply 200 (cids_body [0; 5]%Z)]) "50-00-0"
                   Session0
  = (Value {| data := None;
              error := Some "No compound found for this CAS number" |},
     asked (searchUrl "50-00-0") Session0).
Proof.
  split.
  - destruct (only_first_cid_used formaldehyde_found "50-00-0" Session0
                _ _ _ _ 712%Z [713%Z] eq_refl eq_refl eq_refl eq_refl)
      as [_ H].
    destruct (H ltac:(discriminate) ltac:(unfold safe_integer; lia))
      as (evs & Hh & Hhead & _).
    exists evs. split; [exact Hh | exact Hhead].
  - destruct (only_first_cid_used (scripted [reply 200 (cids_body [0; 5]%Z)])
                "50-00-0" Session0
                _ _ _ _ 0%Z [5%Z] eq_refl eq_refl eq_refl eq_refl)
      as [H _].
    exact (H eq_refl).
Defined.

(** ** The input reader *)

Section CsvFacts.
Import Csv.

(** What one turn of the loop appends. *)
Lemma reader_step (record : gmap string string) :
  (let casNumber :=
     Str.or (Str.or (Str.or (record !! "cas_number") (record !! "CAS"))
                    (record !! "cas"))
            (record !! "CAS Number") in
   if Str.truthy_opt casNumber
   then Some (trim (default EmptyString casNumber))
   else None)
  = kept_of_row record.
Proof.
  unfold kept_of_row, recognised_columns, filled_cell.
  cbn [omap list_omap].
  unfold Str.or, Str.truthy_opt, Str.truthy.
  destruct (record !! "cas_number") as [v1|];
    [destruct (Str.is_empty v1) eqn:E1|];
    (destruct (record !! "CAS") as [v2|];
     [destruct (Str.is_empty v2) eqn:E2|]);
    (destruct (record !! "cas") as [v3|];
     [destruct (Str.is_empty v3) eqn:E3|]);
    (destruct (record !! "CAS Number") as [v4|];
     [destruct (Str.is_empty v4) eqn:E4|]);
    cbn -[trim];
    repeat match goal with
           | E : Str.is_empty _ = _ |- _ => rewrite E; cbn -[trim]
           end;
    reflexivity.
Qed.

Lemma reader_foldl records acc :
  foldl
    (fun casNumbers record =>
       let casNumber :=
         Str.or (Str.or (Str.or (record !! "cas_number") (record !! "CAS"))
                        (record !! "cas"))
                (record !! "CAS Number") in
       if Str.truthy_opt casNumber
       then casNumbers ++ [trim (default EmptyString casNumber)]
       else casNumbers)
    acc records
  = acc ++ omap kept_of_row records.
Proof.
  revert acc. induction records as [|record records IH]; intros acc.
  - cbn. now rewrite app_nil_r.
  - cbn [foldl]. rewrite IH. cbn [omap list_omap].
    rewrite <- (reader_step record). cbv zeta.
    destruct (Str.truthy_opt _); [|reflexivity].
    now rewrite <- app_assoc.
Qed.

(** On a cell the parser has trimmed, "not empty" and "not empty after
    trimming" are the same. *)
Lemma filled_cell_trimmed record column :
  trimmed_cells record ->
  trim <$> filled_cell record column
  = non_empty_after_trimming record column.
Proof.
  intros Htrim. unfold filled_cell, non_empty_after_trimming.
  destruct (record !! column) as [v|] eqn:Hv; [|reflexivity].
  rewrite (Htrim _ _ Hv). destruct (Str.is_empty v); [reflexivity|].
  cbn. now rewrite (Htrim _ _ Hv).
Qed.

Lemma kept_of_row_trimmed record :
  trimmed_cells record -> kept_of_row record = identifier_of_row record.
Proof.
  intros Htrim. unfold kept_of_row, identifier_of_row.
  induction recognised_columns as [|column columns IH]; [reflexivity|].
  cbn [omap list_omap]. rewrite <- (filled_cell_trimmed _ _ Htrim).
  destruct (filled_cell record column); [reflexivity|exact IH].
Qed.

Lemma identifier_of_row_non_empty record identifier :
  identifier_of_row record = Some identifier ->
  identifier <> EmptyString.
Proof.
  unfold identifier_of_row.
  induction recognised_columns as [|column columns IH]; [discriminate|].
  cbn [omap list_omap]. unfold non_empty_after_trimming at 1.
  destruct (record !! column) as [v|]; [|exact IH].
  destruct (Str.is_empty (trim v)) eqn:E; [exact IH|].
  intros [= <-]. unfold Str.is_empty in E.
  now apply bool_decide_eq_false in E.
Qed.
End CsvFacts.

(** On records whose cells are trimmed, the reader returns, row by row and
    in the order of the rows,
    the trimmed value of the first of the columns [cas_number], [CAS],
    [cas], [CAS Number] whose value is not empty; a row in which none of
    these columns has a non-empty value contributes nothing; and no
    identifier returned is empty. *)
Theorem reader_follows_column_priority (records : list (gmap string string)) :
  Forall Csv.trimmed_cells records ->
  Csv.readCasNumbersFromCsv records = Csv.identifiers_spec records /\
  Forall (fun identifier => identifier <> EmptyString)
         (Csv.readCasNumbersFromCsv records).
Proof.
  intros Htrim.
  assert (Hspec : Csv.readCasNumbersFromCsv records
                  = Csv.identifiers_spec records).
  { unfold Csv.readCasNumbersFromCsv. rewrite reader_foldl. cbn [app].
    unfold Csv.identifiers_spec.
    induction Htrim as [|record records Hrecord _ IH]; [reflexivity|].
    cbn [omap list_omap]. rewrite (kept_of_row_trimmed _ Hrecord), IH.
    reflexivity. }
  split; [exact Hspec|]. rewrite Hspec. unfold Csv.identifiers_spec.
  apply Forall_forall. intros identifier Hin.
  apply list_elem_of_omap in Hin as (record & _ & Hrow).
  exact (identifier_of_row_non_empty _ _ Hrow).
Qed.

(** A file whose only recognised header is [CAS Number] yields its
    identifiers, and a row whose recognised cells are all empty yields no
    identifier. *)
Lemma reader_follows_column_priority_witness :
  Csv.readCasNumbersFromCsv
    [ {[ "CAS Number" := "50-00-0"; "name" := "formaldehyde" ]};
      {[ "CAS Number" := EmptyString; "name" := "unknown" ]};
      {[ "CAS Number" := "64-17-5"; "name" := "ethanol" ]} ]
  = ["50-00-0"; "64-17-5"].
Proof.
  destruct (reader_follows_column_priority
              [ {[ "CAS Number" := "50-00-0"; "name" := "formaldehyde" ]};
                {[ "CAS Number" := EmptyString; "name" := "unknown" ]};
                {[ "CAS Number" := "64-17-5"; "name" := "ethanol" ]} ])
    as [-> _]; [|reflexivity].
  apply (bool_decide_unpack _). vm_compute. exact I.
Defined.

(** C6.  The code departs from the claim on a cell of white space only
    (which the parser keeps when the cell is quoted): the reader tests a
    cell for emptiness before it trims it.  Such a cell is taken as the
    first non-empty value, before a later column that holds an
    identifier, and a row whose only recognised cell is such a cell is
    not skipped: both give the empty identifier, where the reader as the
    claim describes it gives the identifier of the later column and
    nothing.  A cell with an identifier between white space is trimmed,
    and a row without a recognised column is skipped, as claimed. *)
Theorem reader_keeps_blank_cells :
  Csv.readCasNumbersFromCsv
    [ {[ "cas_number" := " "; "CAS" := "50-00-0" ]};
      {[ "cas" := "   " ]};
      {[ "name" := "water" ]};
      {[ "CAS Number" := " 64-17-5 " ]} ]
  = [EmptyString; EmptyString; "64-17-5"] /\
  Csv.identifiers_spec
    [ {[ "cas_number" := " "; "CAS" := "50-00-0" ]};
      {[ "cas" := "   " ]};
      {[ "name" := "water" ]};
      {[ "CAS Number" := " 64-17-5 " ]} ]
  = ["50-00-0"; "64-17-5"].
Proof. split; reflexivity. Qed.

(** A single cell of white space only, as the smallest case. *)
Example reader_keeps_untrimmed_blank :
  Csv.readCasNumbersFromCsv [ {[ "cas" := " " ]} ] = [EmptyString].
Proof. reflexivity. Qed.

(** ** The worker pool *)

Section PoolFacts.
Context {T R : Type}.
Variable items : list T.
Variable f : T -> nat -> R.
Variable processor : T -> nat -> Result R.
Variable concurrency : nat.
(** Every promise of [processor] resolves. *)
Hypothesis processor_resolves :
  forall item index, processor item index = Value (f item index).

Local Abbreviation Inv := (pool_invariant items f concurrency).

(** Starting [k] workers when at least [k] items are left: worker [j]
    awaits the item [j] places after the cursor. *)
Lemma spawn_spec k s :
  Pool.currentIndex s + k <= length items ->
  Pool.currentIndex (Pool.spawn items processor k s).1
  = Pool.currentIndex s + k /\
  Pool.results (Pool.spawn items processor k s).1 = Pool.results s /\
  Pool.started (Pool.spawn items processor k s).1
  = Pool.started s ++ seq (Pool.currentIndex s) k /\
  length (Pool.spawn items processor k s).2 = k /\
  forall j, j < k ->
    exists item,
      items !! (Pool.currentIndex s + j) = Some item /\
      (Pool.spawn items processor k s).2 !! j
      = Some (Pool.Awaiting (Pool.currentIndex s + j)
                            (Value (f item (Pool.currentIndex s + j)))).
Proof.
  revert s. induction k as [|k IH]; intros s Hk.
  - cbn. rewrite Nat.add_0_r, app_nil_r. repeat split. intros j Hj. lia.
  - cbn [Pool.spawn]. unfold Pool.worker_loop.
    destruct (items !! Pool.currentIndex s) as [item|] eqn:Hitem.
    2:{ apply lookup_ge_None in Hitem. lia. }
    match goal with
    | |- context [Pool.spawn items processor k ?s1] =>
        specialize (IH s1); destruct (Pool.spawn items processor k s1)
          as [s2 ws]
    end.
    cbn in IH |- *. destruct IH as (Hc & Hr & Hs & Hl & Hw); [lia|].
    repeat split.
    + lia.
    + assumption.
    + rewrite Hs, <- app_assoc. reflexivity.
    + lia.
    + intros [|j] Hj.
      * exists item. rewrite Nat.add_0_r. split; [assumption|].
        cbn. now rewrite processor_resolves.
      * destruct (Hw j) as (item' & Hi & Hwj); [lia|]. exists item'.
        replace (Pool.currentIndex s + S j)
          with (S (Pool.currentIndex s + j)) by lia.
        split; assumption.
Qed.

Lemma invariant_start : Inv (Pool.start items processor concurrency).
Proof.
  unfold Pool.start.
  match goal with
  | |- Inv (Pool.spawn _ _ ?k ?s0) =>
      destruct (spawn_spec k s0) as (Hc & Hr & Hs & Hl & Hw);
        [cbn; lia|]; set (p := Pool.spawn items processor k s0) in *
  end.
  cbn in Hc, Hr, Hs, Hw.
  assert (Hat : forall w x, p.2 !! w = Some x ->
            exists item, items !! w = Some item /\
                         x = Pool.Awaiting w (Value (f item w))).
  { intros w x Hx. pose proof (lookup_lt_Some _ _ _ Hx) as Hlt.
    destruct (Hw w) as (item & Hi & Hwi); [lia|]. exists item.
    split; [assumption|]. congruence. }
  split.
  - lia.
  - rewrite Hs, Hc. reflexivity.
  - rewrite Hr. apply length_replicate.
  - exact Hl.
  - intros w i promise Hwi.
    destruct (Hat _ _ Hwi) as (item & Hi & [= -> ->]).
    pose proof (lookup_lt_Some _ _ _ Hwi). split; [lia|]. eauto.
  - intros w1 w2 i promise1 promise2 H1 H2.
    destruct (Hat _ _ H1) as (? & _ & [= -> _]).
    destruct (Hat _ _ H2) as (? & _ & [= -> _]). reflexivity.
  - intros i item Hi Hlt Hnone. exfalso.
    destruct (Hw i) as (item' & _ & Hwi); [lia|]. exact (Hnone _ _ Hwi).
  - intros w Hres. destruct (Hat _ _ Hres) as (? & _ & [=]).
  - intros w e Hrej. destruct (Hat _ _ Hrej) as (? & _ & [=]).
Qed.
(** Where a worker is found after worker [w] has been replaced. *)
Lemma lookup_replaced (ws : list (Pool.worker (R:=R))) w new w0 x :
  <[w := new]> ws !! w0 = Some x ->
  (w0 = w /\ x = new) \/ (w0 <> w /\ ws !! w0 = Some x).
Proof.
  intros [(-> & -> & _)|[Hne Hx]]%list_lookup_insert_Some; [left|right]; auto.
Qed.

Lemma invariant_settle w p : Inv p -> Inv (Pool.settle items processor w p).
Proof.
  intros HI. destruct p as [s ws]. unfold Pool.settle. cbn [fst snd].
  destruct (ws !! w) as [[i promise| |e]|] eqn:Hw; try exact HI.
  destruct HI as [Hcur Hst Hlen Hws Haw Hdis Hdone Hres Hrej].
  cbn [fst snd] in *.
  destruct (Haw w i promise Hw) as (Hic & item & Hitem & ->).
  pose proof (lookup_lt_Some _ _ _ Hw) as Hwlt.
  unfold Pool.worker_resume, Pool.worker_loop.
  cbn [Pool.currentIndex Pool.results Pool.started].
  assert (Hset : array_set (Pool.results s) i (f item i)
                 = <[i := Some (f item i)]> (Pool.results s)).
  { unfold array_set. rewrite decide_True by lia. reflexivity. }
  rewrite Hset. clear Hset.
  destruct (items !! Pool.currentIndex s) as [next|] eqn:Hnext.
  - (* the worker claims the next index *)
    pose proof (lookup_lt_Some _ _ _ Hnext) as Hnlt.
    rewrite processor_resolves.
    split; cbn [fst snd Pool.currentIndex Pool.results Pool.started].
    + lia.
    + rewrite Hst, seq_S. reflexivity.
    + now rewrite length_insert.
    + now rewrite length_insert.
    + intros w0 i0 promise0
        [[-> [= -> ->]]|[Hne Hold]]%lookup_replaced.
      * split; [lia|]. eauto.
      * destruct (Haw _ _ _ Hold) as (? & ?). split; [lia|assumption].
    + intros w1 w2 i0 promise1 promise2
        [[-> [= -> ->]]|[Hne1 Hold1]]%lookup_replaced
        [[-> E2]|[Hne2 Hold2]]%lookup_replaced.
      * reflexivity.
      * destruct (Haw _ _ _ Hold2) as (? & _). lia.
      * injection E2 as -> ->.
        destruct (Haw _ _ _ Hold1) as (? & _). lia.
      * eauto.
    + intros i0 item0 Hi0 Hlt0 Hnone.
      destruct (decide (i0 = Pool.currentIndex s)) as [->|Hneq].
      { exfalso. apply (Hnone w (Value (f next (Pool.currentIndex s)))).
        now apply list_lookup_insert_eq. }
      destruct (decide (i0 = i)) as [->|Hneq'].
      { rewrite list_lookup_insert_eq by lia. congruence. }
      rewrite list_lookup_insert_ne by congruence.
      apply Hdone; [assumption|lia|].
      intros w0 promise0 Hold.
      destruct (decide (w0 = w)) as [->|Hnew]; [congruence|].
      apply (Hnone w0 promise0).
      now rewrite list_lookup_insert_ne by congruence.
    + intros w0 [[_ [=]]|[_ Hold]]%lookup_replaced.
      apply Hres in Hold. lia.
    + intros w0 e [[_ [=]]|[_ Hold]]%lookup_replaced.
      exact (Hrej _ _ Hold).
  - (* no index is left: the worker returns *)
    apply lookup_ge_None in Hnext.
    split; cbn [fst snd Pool.currentIndex Pool.results Pool.started].
    + assumption.
    + assumption.
    + now rewrite length_insert.
    + now rewrite length_insert.
    + intros w0 i0 promise0 [[_ [=]]|[Hne Hold]]%lookup_replaced.
      exact (Haw _ _ _ Hold).
    + intros w1 w2 i0 promise1 promise2
        [[_ [=]]|[Hne1 Hold1]]%lookup_replaced
        [[_ [=]]|[Hne2 Hold2]]%lookup_replaced.
      eauto.
    + intros i0 item0 Hi0 Hlt0 Hnone.
      destruct (decide (i0 = i)) as [->|Hneq'].
      { rewrite list_lookup_insert_eq by lia. congruence. }
      rewrite list_lookup_insert_ne by congruence.
      apply Hdone; [assumption|lia|].
      intros w0 promise0 Hold.
      destruct (decide (w0 = w)) as [->|Hnew]; [congruence|].
      apply (Hnone w0 promise0).
      now rewrite list_lookup_insert_ne by congruence.
    + intros _ _. assumption.
    + intros w0 e [[_ [=]]|[_ Hold]]%lookup_replaced.
      exact (Hrej _ _ Hold).
Qed.

Lemma invariant_run sched p :
  Inv p -> Inv (Pool.run items processor sched p).
Proof.
  revert p. induction sched as [|w sched IH]; intros p HI; [exact HI|].
  cbn. apply IH, invariant_settle, HI.
Qed.
Lemma no_rejection (ws : list (Pool.worker (R:=R))) :
  (forall w e, ws !! w <> Some (Pool.Rejected e)) ->
  omap Pool.rejection ws = [].
Proof.
  induction ws as [|x ws IH]; intros Hrej; [reflexivity|].
  cbn. destruct x as [i promise| |e]; cbn.
  - apply IH. intros w e. exact (Hrej (S w) e).
  - apply IH. intros w e. exact (Hrej (S w) e).
  - exfalso. exact (Hrej 0 e eq_refl).
Qed.

Lemma all_resolved (ws : list (Pool.worker (R:=R))) w x :
  forallb Pool.is_resolved ws = true -> ws !! w = Some x ->
  x = Pool.Resolved.
Proof.
  intros Hall Hx. apply Is_true_true, forallb_True in Hall.
  pose proof (Forall_lookup_1 _ _ _ _ Hall Hx) as Hr.
  destruct x; [destruct Hr|reflexivity|destruct Hr].
Qed.

Lemma not_all_resolved (ws : list (Pool.worker (R:=R))) :
  forallb Pool.is_resolved ws = false ->
  exists w x, ws !! w = Some x /\ Pool.is_resolved x = false.
Proof.
  induction ws as [|x ws IH]; [discriminate|].
  cbn. destruct (Pool.is_resolved x) eqn:Hx; cbn.
  - intros (w & y & Hy & Hr)%IH. exists (S w), y. auto.
  - intros _. exists 0, x. auto.
Qed.

(** Under the invariant [Promise.all] does not reject. *)
Lemma promise_all_cases p :
  Inv p ->
  Pool.promise_all p
  = if forallb Pool.is_resolved p.2 then Fulfilled (Pool.results p.1)
    else Pending.
Proof.
  intros HI. unfold Pool.promise_all.
  now rewrite (no_rejection _ (inv_no_rejection _ _ _ _ HI)).
Qed.

(** When every worker has returned, each result is at the index of its
    item and every index was handed to [processor] once, in order. *)
Lemma fulfilled_values p results :
  1 <= concurrency -> Inv p ->
  Pool.promise_all p = Fulfilled results ->
  results = values items f /\
  Pool.started p.1 = seq 0 (length items).
Proof.
  intros HC HI. rewrite (promise_all_cases _ HI).
  destruct (forallb Pool.is_resolved p.2) eqn:Hall; [|discriminate].
  intros [= <-].
  destruct HI as [Hcur Hst Hlen Hws Haw Hdis Hdone Hres Hrej].
  assert (Hend : Pool.currentIndex p.1 = length items).
  { destruct (decide (length items = 0)) as [E|E]; [lia|].
    destruct (lookup_lt_is_Some_2 p.2 0) as [x Hx]; [lia|].
    pose proof (all_resolved _ _ _ Hall Hx) as ->.
    apply Hres in Hx. lia. }
  split; [|now rewrite Hst, Hend].
  apply list_eq. intros i. unfold values.
  rewrite list_lookup_fmap, list_lookup_imap.
  destruct (items !! i) as [item|] eqn:Hi; cbn.
  - apply Hdone; [assumption| |].
    + apply lookup_lt_Some in Hi. lia.
    + intros w promise Hw. now pose proof (all_resolved _ _ _ Hall Hw).
  - apply lookup_ge_None. apply lookup_ge_None in Hi. lia.
Qed.

(** Whatever the order in which the promises settle, the pool does not
    reject, and when it is over the results are those of the items. *)
Lemma await_all_sound sched p :
  1 <= concurrency -> Inv p ->
  (forall e, Pool.await_all items processor sched p <> Failed e) /\
  (forall results,
      Pool.await_all items processor sched p = Fulfilled results ->
      results = values items f).
Proof.
  intros HC. revert p. induction sched as [|w sched IH]; intros p HI.
  - cbn. destruct (Pool.promise_all p) as [|results|e] eqn:Hp.
    + split; [discriminate|discriminate].
    + split; [discriminate|]. intros ? [= <-].
      now apply (fulfilled_values p).
    + rewrite (promise_all_cases _ HI) in Hp.
      destruct (forallb _ _); discriminate.
  - cbn. destruct (Pool.promise_all p) as [|results|e] eqn:Hp.
    + apply IH, invariant_settle, HI.
    + split; [discriminate|]. intros ? [= <-].
      now apply (fulfilled_values p).
    + rewrite (promise_all_cases _ HI) in Hp.
      destruct (forallb _ _); discriminate.
Qed.
(** Counting the calls in flight when one worker changes state. *)
Lemma in_flight_replaced (ws : list (Pool.worker (R:=R))) w old new :
  ws !! w = Some old ->
  length (filter Pool.is_awaiting (<[w := new]> ws))
  + (if Pool.is_awaiting old then 1 else 0)
  = length (filter Pool.is_awaiting ws)
    + (if Pool.is_awaiting new then 1 else 0).
Proof.
  revert w. induction ws as [|x ws IH]; intros [|w] Hw; try discriminate.
  - injection Hw as ->.
    change (<[0 := new]> (old :: ws)) with (new :: ws).
    rewrite !filter_cons.
    destruct (decide (Pool.is_awaiting new)) as [Hn|Hn],
             (decide (Pool.is_awaiting old)) as [Ho|Ho];
      destruct (Pool.is_awaiting new), (Pool.is_awaiting old);
      cbn in *; try tauto; lia.
  - cbn in Hw. specialize (IH w Hw).
    change (<[S w := new]> (x :: ws)) with (x :: <[w := new]> ws).
    rewrite !filter_cons.
    destruct (decide (Pool.is_awaiting x)); cbn [length Nat.add];
      congruence.
Qed.

(** Every resumption of a waiting worker completes one item. *)
Lemma settle_remaining w i promise p :
  Inv p -> p.2 !! w = Some (Pool.Awaiting i promise) ->
  remaining items (Pool.settle items processor w p) + 1
  = remaining items p.
Proof.
  intros HI Hw. destruct p as [s ws]. cbn [fst snd] in *.
  destruct (inv_awaiting _ _ _ _ HI w i promise Hw)
    as (Hic & item & Hitem & ->).
  pose proof (inv_cursor _ _ _ _ HI) as Hcur. cbn [fst snd] in Hcur.
  unfold remaining, Pool.in_flight, Pool.settle. cbn [fst snd]. rewrite Hw.
  unfold Pool.worker_resume, Pool.worker_loop.
  cbn [Pool.currentIndex Pool.results Pool.started].
  destruct (items !! Pool.currentIndex s) as [next|] eqn:Hnext;
    cbn [fst snd Pool.currentIndex].
  - apply lookup_lt_Some in Hnext.
    pose proof (in_flight_replaced ws w _
                  (Pool.Awaiting (Pool.currentIndex s)
                     (processor next (Pool.currentIndex s))) Hw) as Hn.
    cbn in Hn. lia.
  - pose proof (in_flight_replaced ws w _ Pool.Resolved Hw) as Hn.
    cbn in Hn. lia.
Qed.

(** While the pool is pending some worker is waiting. *)
Lemma pending_progress p :
  Inv p -> Pool.promise_all p = Pending ->
  exists w i promise, p.2 !! w = Some (Pool.Awaiting i promise).
Proof.
  intros HI. rewrite (promise_all_cases _ HI).
  destruct (forallb Pool.is_resolved p.2) eqn:Hall; [discriminate|].
  intros _. destruct (not_all_resolved _ Hall) as (w & x & Hx & Hr).
  destruct x as [i promise| |e]; [eauto|discriminate|].
  exfalso. exact (inv_no_rejection _ _ _ _ HI _ _ Hx).
Qed.

(** From every state of the pool some order of completion ends it. *)
Lemma await_all_completes m p :
  Inv p -> remaining items p <= m ->
  exists sched results,
    Pool.await_all items processor sched p = Fulfilled results.
Proof.
  revert p. induction m as [|m IH]; intros p HI Hm.
  - destruct (Pool.promise_all p) as [|results|e] eqn:Hp.
    + destruct (pending_progress _ HI Hp) as (w & i & promise & Hw).
      pose proof (settle_remaining _ _ _ _ HI Hw). lia.
    + exists [], results. cbn. now rewrite Hp.
    + rewrite (promise_all_cases _ HI) in Hp.
      destruct (forallb _ _); discriminate.
  - destruct (Pool.promise_all p) as [|results|e] eqn:Hp.
    + destruct (pending_progress _ HI Hp) as (w & i & promise & Hw).
      pose proof (settle_remaining _ _ _ _ HI Hw) as Hless.
      destruct (IH (Pool.settle items processor w p))
        as (sched & results & Hrun);
        [now apply invariant_settle|lia|].
      exists (w :: sched), results. cbn. now rewrite Hp.
    + exists [], results. cbn. now rewrite Hp.
    + rewrite (promise_all_cases _ HI) in Hp.
      destruct (forallb _ _); discriminate.
Qed.

Lemma in_flight_bound p : Inv p -> Pool.in_flight p <= concurrency.
Proof.
  intros HI. unfold Pool.in_flight.
  pose proof (length_filter Pool.is_awaiting p.2).
  pose proof (inv_workers _ _ _ _ HI). lia.
Qed.
End PoolFacts.

(** ** The pipeline of [processChemicals] *)

Lemma getCompoundByCas_resolves upstream casNumber s :
  getCompoundByCas upstream casNumber s
  = (Value (lookup_result upstream casNumber s),
     (getCompoundByCas_try upstream casNumber s).2).
Proof.
  rewrite getCompoundByCas_unfold. unfold lookup_result.
  destruct (getCompoundByCas_try upstream casNumber s) as [[result|e] s1];
    reflexivity.
Qed.

Lemma lookup_result_shapes upstream casNumber s :
  is_success_result (lookup_result upstream casNumber s) \/
  is_failure_result (lookup_result upstream casNumber s).
Proof.
  unfold lookup_result. rewrite getCompoundByCas_try_unfold.
  unfold is_success_result, is_failure_result, no_compound_found,
    no_properties.
  destruct (fetchWithRetry upstream (searchUrl casNumber) s)
    as [[searchResponse|e] s1]; [|right; eexists; reflexivity].
  destruct (json searchResponse) as [e|searchData];
    [right; eexists; reflexivity|].
  destruct (first_CID searchData) as [cid|];
    [|right; eexists; reflexivity].
  destruct (cid =? 0)%Z; [right; eexists; reflexivity|].
  destruct (fetchWithRetry upstream (propsUrl cid) s1)
    as [[propsResponse|e] s2]; [|right; eexists; reflexivity].
  destruct (json propsResponse) as [e|propsData];
    [right; eexists; reflexivity|].
  destruct (first_Properties propsData) as [props|];
    [left|right]; eexists; reflexivity.
Qed.

(** The promise of the arrow function always resolves, to the row of its
    identifier. *)
Lemma processor_resolves responses total casNumber index :
  processor responses total casNumber index
  = Value (lookup_row responses total casNumber index).
Proof.
  unfold processor, processor_body, lookup_row, row_of.
  unfold bind at 1, console_log at 1.
  fold (progress_line total casNumber index).
  unfold bind. rewrite getCompoundByCas_resolves.
  destruct (data (lookup_result _ _ _)); cbn; [reflexivity|].
  unfold ret. cbn. do 3 f_equal.
  unfold first_available, available, Str.or_default, Str.truthy.
  destruct (error (lookup_result _ _ _)) as [message|]; cbn; [|reflexivity].
  destruct (Str.is_empty message); reflexivity.
Qed.

Lemma lookup_row_shapes responses total casNumber index :
  OutputRow.cas_number (lookup_row responses total casNumber index)
  = casNumber /\
  (is_success_row (lookup_row responses total casNumber index) \/
   is_failed_row (lookup_row responses total casNumber index)).
Proof.
  unfold lookup_row, row_of, is_success_row, is_failed_row.
  destruct (data (lookup_result _ _ _)); cbn; split; eauto 10.
Qed.

Lemma values_lookup {T R : Type} (items : list T) (f : T -> nat -> R) :
  length (values items f) = length items /\
  forall i item, items !! i = Some item ->
                 values items f !! i = Some (Some (f item i)).
Proof.
  unfold values. split.
  - now rewrite length_fmap, length_imap.
  - intros i item Hi. now rewrite list_lookup_fmap, list_lookup_imap, Hi.
Qed.



(** The bound of at least 1 is needed: without a worker the pool is over
    at once and the result array is all holes. *)
Example no_worker_no_result :
  Pool.processInParallel ["a"; "b"]
    (fun item index => Value (item +:+ Str.of_nat index)) 0 []
  = Fulfilled [None; None].
Proof. reflexivity. Qed.

(** C8.  At every moment of a run (after any number of completions, in
    any order): the pool has min(C, item count) workers; at most C calls
    of the processor are in flight; the indices claimed so far are 0, 1,
    ... up to the cursor, each once; no two workers hold the same index.
    With C at least 1, when every worker has returned each index has been
    claimed exactly once and each result is in the cell of its own index. *)
Theorem pool_bounded_and_claims_once {T R : Type} (items : list T)
        (f : T -> nat -> R) (processor : T -> nat -> Result R)
        (concurrency : nat) (sched : list nat) :
  (forall item index, processor item index = Value (f item index)) ->
  let p := Pool.run items processor sched
                    (Pool.start items processor concurrency) in
  length p.2 = Nat.min concurrency (length items) /\
  Pool.in_flight p <= concurrency /\
  Pool.started p.1 = seq 0 (Pool.currentIndex p.1) /\
  NoDup (Pool.started p.1) /\
  (forall w1 w2 i promise1 promise2,
      p.2 !! w1 = Some (Pool.Awaiting i promise1) ->
      p.2 !! w2 = Some (Pool.Awaiting i promise2) -> w1 = w2) /\
  (1 <= concurrency ->
   forall results,
     Pool.promise_all p = Fulfilled results ->
     Pool.started p.1 = seq 0 (length items) /\
     forall i item, items !! i = Some item ->
                    results !! i = Some (Some (f item i))).
Proof.
  intros Hres p.
  assert (HI : pool_invariant items f concurrency p).
  { apply (invariant_run items f processor concurrency Hres),
      (invariant_start items f processor concurrency Hres). }
  split; [exact (inv_workers _ _ _ _ HI)|].
  split; [exact (in_flight_bound items f concurrency _ HI)|].
  split; [exact (inv_started _ _ _ _ HI)|].
  split; [rewrite (inv_started _ _ _ _ HI); apply NoDup_seq|].
  split; [exact (inv_distinct _ _ _ _ HI)|].
  intros HC results Hall.
  destruct (fulfilled_values items f concurrency p results HC HI Hall)
    as [-> Hstarted].
  split; [exact Hstarted|]. apply values_lookup.
Qed.

Lemma pool_bounded_and_claims_once_witness :
  let p := Pool.run ["a"; "b"; "c"; "d"; "e"; "f"; "g"]
             (fun item index => Value (item +:+ Str.of_nat index)) [3; 0; 3]
             (Pool.start ["a"; "b"; "c"; "d"; "e"; "f"; "g"]
                (fun item index => Value (item +:+ Str.of_nat index))
                CONCURRENCY_LIMIT) in
  length p.2 = 5 /\ Pool.in_flight p <= 5 /\
  Pool.started p.1 = [0; 1; 2; 3; 4; 5; 6].
Proof.
  intros p.
  destruct (pool_bounded_and_claims_once ["a"; "b"; "c"; "d"; "e"; "f"; "g"]
              (fun item index => item +:+ Str.of_nat index)
              (fun item index => Value (item +:+ Str.of_nat index))
              CONCURRENCY_LIMIT [3; 0; 3] (fun _ _ => eq_refl))
    as (Hworkers & Hflight & Hstarted & _).
  split; [exact Hworkers|]. split; [exact Hflight|]. exact Hstarted.
Defined.

(** The answers of the upstream service are all a lookup depends on. *)
Section SameResponses.
Variables upstream1 upstream2 : Upstream.
Hypothesis same : forall n url, upstream1 n url = upstream2 n url.

Lemma fetchWithRetry_loop_same url delay k i s :
  fetchWithRetry_loop upstream1 url delay k i s
  = fetchWithRetry_loop upstream2 url delay k i s.
Proof.
  revert i s. induction k as [|k IH]; intros i s; [reflexivity|].
  rewrite !fetchWithRetry_loop_S, same.
  destruct (upstream2 (requests s) url) as [e|r]; [reflexivity|].
  destruct (ok r); [reflexivity|]. destruct (retried r); [|reflexivity].
  apply IH.
Qed.

Lemma lookup_result_same casNumber s :
  lookup_result upstream1 casNumber s = lookup_result upstream2 casNumber s.
Proof.
  unfold lookup_result. rewrite !getCompoundByCas_try_unfold.
  unfold fetchWithRetry, fetchWithRetry_with.
  rewrite fetchWithRetry_loop_same.
  destruct (fetchWithRetry_loop upstream2 _ _ _ _ s)
    as [[searchResponse|e] s1]; [|reflexivity].
  destruct (json searchResponse) as [e|searchData]; [reflexivity|].
  destruct (first_CID searchData) as [cid|]; [|reflexivity].
  destruct (cid =? 0)%Z; [reflexivity|].
  now rewrite fetchWithRetry_loop_same.
Qed.
End SameResponses.

Section PipelineFacts.
Variable responses : nat -> Upstream.
Variable records : list (gmap string string).

Local Abbreviation casNumbers := (Csv.readCasNumbersFromCsv records).
Local Abbreviation rows :=
  (values casNumbers (lookup_row responses (length casNumbers))).

(** A run of the pipeline never rejects, and when it is over it has
    written the rows of the identifiers, in their order. *)
Lemma processChemicals_sound sched startTime endTime :
  (forall e,
      processChemicals responses records sched startTime endTime
      <> Failed e) /\
  (forall report,
      processChemicals responses records sched startTime endTime
      = Fulfilled report ->
      written report = rows).
Proof.
  unfold processChemicals.
  destruct (await_all_sound casNumbers
              (lookup_row responses (length casNumbers))
              (processor responses (length casNumbers)) CONCURRENCY_LIMIT
              (processor_resolves responses (length casNumbers))
              sched _ (le_S _ _ (le_S _ _ (le_S _ _ (le_S _ _ (le_n 1)))))
              (invariant_start _ _ _ _
                 (processor_resolves responses (length casNumbers))))
    as [Hnofail Hsound].
  fold (Pool.processInParallel casNumbers
          (processor responses (length casNumbers)) CONCURRENCY_LIMIT sched)
    in Hnofail, Hsound.
  destruct (Pool.processInParallel _ _ _ sched) as [|results|e].
  - split; discriminate.
  - split; [discriminate|]. intros report [= <-]. cbn.
    now apply Hsound.
  - now destruct (Hnofail e).
Qed.

(** Some order of completion brings the pipeline to its end. *)
Lemma processChemicals_completes startTime endTime :
  exists sched report,
    processChemicals responses records sched startTime endTime
    = Fulfilled report.
Proof.
  destruct (await_all_completes casNumbers
              (lookup_row responses (length casNumbers))
              (processor responses (length casNumbers)) CONCURRENCY_LIMIT
              (processor_resolves responses (length casNumbers)) _ _
              (invariant_start _ _ _ _
                 (processor_resolves responses (length casNumbers)))
              (le_n _))
    as (sched & results & Hrun).
  exists sched. unfold processChemicals, Pool.processInParallel.
  rewrite Hrun. eauto.
Qed.
End PipelineFacts.

Lemma values_same {T R : Type} (items : list T) (f g : T -> nat -> R) :
  (forall item index, f item index = g item index) ->
  values items f = values items g.
Proof.
  intros Hfg. unfold values. f_equal. apply imap_ext. intros i item _.
  apply Hfg.
Qed.

Lemma successCount_of_written responses records sched startTime endTime
      report :
  processChemicals responses records sched startTime endTime
  = Fulfilled report ->
  successCount report
  = length (filter (fun r => is_success r = true) (omap id (written report))).
Proof.
  unfold processChemicals.
  destruct (Pool.processInParallel _ _ _ sched); [discriminate| |discriminate].
  intros [= <-]. reflexivity.
Qed.

(** C4.  A lookup never throws: it resolves to a record without an error
    string or to an error string without a record, and whatever its [try]
    block throws becomes the error string of a failure.  A run of the
    pipeline therefore never rejects, whatever the responses and the order
    of completion; it can always run to its end; and when it is over it
    has one row per identifier, each a success row or a failed row with
    empty data fields. *)
Theorem lookup_errors_stay_in_their_row (responses : nat -> Upstream)
        (records : list (gmap string string)) :
  (forall upstream casNumber s,
      exists result s',
        getCompoundByCas upstream casNumber s = (Value result, s') /\
        (is_success_result result \/ is_failure_result result) /\
        forall e s1,
          getCompoundByCas_try upstream casNumber s = (Raise e, s1) ->
          result = {| data := None; error := Some (message_of e) |} /\
          s' = s1) /\
  (forall sched startTime endTime,
      (forall e, processChemicals responses records sched startTime endTime
                 <> Failed e) /\
      forall report,
        processChemicals responses records sched startTime endTime
        = Fulfilled report ->
        length (written report)
        = length (Csv.readCasNumbersFromCsv records) /\
        forall i casNumber,
          Csv.readCasNumbersFromCsv records !! i = Some casNumber ->
          exists row,
            written report !! i = Some (Some row) /\
            OutputRow.cas_number row = casNumber /\
            (is_success_row row \/ is_failed_row row)) /\
  (exists sched report,
      processChemicals responses records sched 0 0 = Fulfilled report).
Proof.
  split; [|split].
  - intros upstream casNumber s. eexists _, _.
    split; [apply getCompoundByCas_resolves|].
    split; [apply lookup_result_shapes|].
    intros e s1 Htry. unfold lookup_result. rewrite Htry. auto.
  - intros sched startTime endTime.
    destruct (processChemicals_sound responses records sched startTime
                endTime) as [Hnofail Hsound].
    split; [exact Hnofail|]. intros report Hrun.
    rewrite (Hsound _ Hrun).
    destruct (values_lookup (Csv.readCasNumbersFromCsv records)
                (lookup_row responses
                   (length (Csv.readCasNumbersFromCsv records))))
      as [Hlen Hat].
    split; [exact Hlen|]. intros i casNumber Hi. eexists.
    split; [exact (Hat _ _ Hi)|]. apply lookup_row_shapes.
  - apply processChemicals_completes.
Qed.

(** C9.  Two runs over the same records whose lookups receive the same
    responses write the same rows and count the same successes, whatever
    the two orders of completion and the two pairs of clock readings. *)
Theorem same_responses_same_rows (responses1 responses2 : nat -> Upstream)
        (records : list (gmap string string)) (sched1 sched2 : list nat)
        (start1 end1 start2 end2 : Z) (report1 report2 : Report) :
  (forall index n url, responses1 index n url = responses2 index n url) ->
  processChemicals responses1 records sched1 start1 end1
  = Fulfilled report1 ->
  processChemicals responses2 records sched2 start2 end2
  = Fulfilled report2 ->
  written report1 = written report2 /\
  successCount report1 = successCount report2.
Proof.
  intros Hsame Hrun1 Hrun2.
  assert (Hrows : written report1 = written report2).
  { destruct (processChemicals_sound responses1 records sched1 start1 end1)
      as [_ H1].
    destruct (processChemicals_sound responses2 records sched2 start2 end2)
      as [_ H2].
    rewrite (H1 _ Hrun1), (H2 _ Hrun2). apply values_same.
    intros casNumber index. unfold lookup_row. f_equal.
    apply lookup_result_same, Hsame. }
  split; [exact Hrows|].
  rewrite (successCount_of_written _ _ _ _ _ _ Hrun1),
    (successCount_of_written _ _ _ _ _ _ Hrun2), Hrows.
  reflexivity.
Qed.

Lemma lookup_errors_stay_in_their_row_witness :
  (exists report,
      processChemicals scenario_responses scenario_records [2; 0; 1] 0 9
      = Fulfilled report /\
      OutputRow.error <$> omap id (written report)
      = [None; Some "No compound found for this CAS number";
         Some "fetch failed"] /\
      successCount report = 1) /\
  (forall sched startTime endTime e,
      processChemicals scenario_responses scenario_records sched startTime
                       endTime <> Failed e).
Proof.
  split.
  - eexists. split; [vm_compute; reflexivity|]. split; reflexivity.
  - intros sched startTime endTime.
    destruct (lookup_errors_stay_in_their_row scenario_responses
                scenario_records) as (_ & Hrun & _).
    exact (proj1 (Hrun sched startTime endTime)).
Defined.

Lemma same_responses_same_rows_witness :
  exists report1 report2,
    processChemicals scenario_responses scenario_records [0; 1; 2] 0 5
    = Fulfilled report1 /\
    processChemicals scenario_responses scenario_records [2; 2; 1; 0] 7 100
    = Fulfilled report2 /\
    elapsed_ms report1 <> elapsed_ms report2 /\
    written report1 = written report2.
Proof.
  eexists _, _. split; [vm_compute; reflexivity|].
  split; [vm_compute; reflexivity|]. split; [discriminate|].
  exact (proj1 (same_responses_same_rows scenario_responses
                  scenario_responses scenario_records [0; 1; 2] [2; 2; 1; 0]
                  0 5 7 100 _ _ (fun _ _ _ => eq_refl) eq_refl eq_refl)).
Defined.

(** * Further properties of the code *)

(** ** [fetchWithRetry]: budget and result *)

Section RetryBudget.
Variable upstream : Upstream.
Variable url : string.

Lemma request_count_app evs1 evs2 :
  request_count (evs1 ++ evs2) = request_count evs1 + request_count evs2.
Proof.
  induction evs1 as [|ev evs1 IH]; cbn; [reflexivity|]. rewrite IH. lia.
Qed.

Lemma pause_count_app evs1 evs2 :
  pause_count (evs1 ++ evs2) = pause_count evs1 + pause_count evs2.
Proof.
  induction evs1 as [|[] evs1 IH]; cbn; try assumption; [reflexivity|].
  now rewrite IH.
Qed.

Lemma total_pause_app evs1 evs2 :
  (total_pause (evs1 ++ evs2) = total_pause evs1 + total_pause evs2)%Z.
Proof.
  induction evs1 as [|[] evs1 IH]; cbn; try assumption; [reflexivity|].
  rewrite IH. lia.
Qed.

(** What the loop adds to the session when [k] iterations are left and the
    next attempt has number [i + 1]. *)
Lemma fetchWithRetry_loop_budget delay k i s :
  (0 <= delay)%Z -> (0 <= i)%Z ->
  exists evs,
    history (fetchWithRetry_loop upstream url delay k i s).2
    = history s ++ evs /\
    requests (fetchWithRetry_loop upstream url delay k i s).2
    = requests s + request_count evs /\
    request_count evs <= k /\
    pause_count evs <= request_count evs /\
    (0 <= total_pause evs)%Z /\
    (2 * total_pause evs
     <= delay * Z.of_nat k * (2 * i + Z.of_nat k + 1))%Z /\
    forallb is_network_event evs = true.
Proof.
  intros Hdelay. revert i s. induction k as [|k IH]; intros i s Hi.
  - exists []. cbn. rewrite app_nil_r. repeat split; lia.
  - rewrite fetchWithRetry_loop_S.
    assert (Hone : exists evs,
               history (asked url s) = history s ++ evs /\
               requests (asked url s) = requests s + request_count evs /\
               request_count evs <= S k /\
               pause_count evs <= request_count evs /\
               (0 <= total_pause evs)%Z /\
               (2 * total_pause evs
                <= delay * Z.of_nat (S k) * (2 * i + Z.of_nat (S k) + 1))%Z /\
               forallb is_network_event evs = true).
    { exists [Requested url]. cbn. repeat split; try lia; nia. }
    destruct (upstream (requests s) url) as [e|r]; [exact Hone|].
    destruct (ok r); [exact Hone|].
    destruct (retried r).
    2:{ destruct (status r =? 404)%Z; exact Hone. }
    destruct (IH (i + 1)%Z
                (record (Slept (delay * (i + 1))%Z) (asked url s)))
      as (evs & Hh & Hr & Hl & Hp & Hpos & Htot & Hnet); [lia|].
    exists (Requested url :: Slept (delay * (i + 1))%Z :: evs).
    rewrite Hh, Hr. cbn. rewrite <- !app_assoc. cbn.
    repeat split; try lia; try assumption; try nia.
Qed.
End RetryBudget.

(** X1.  A call of [fetchWithRetry] that is allowed [retries] attempts with
    a delay that is not negative makes at most [retries] requests, pauses
    at most once per request and for at most
    [delay * retries * (retries + 1) / 2] milliseconds in all, and prints
    nothing; allowed no attempt it fails with "Max retries exceeded"
    without a request. *)
Theorem fetchWithRetry_with_budget (upstream : Upstream) (url : string)
        (retries : nat) (delay : Z) (s : Session) :
  (0 <= delay)%Z ->
  let out := fetchWithRetry_with upstream url retries delay s in
  (exists evs,
      history out.2 = history s ++ evs /\
      requests out.2 = requests s + request_count evs /\
      request_count evs <= retries /\
      pause_count evs <= request_count evs /\
      (2 * total_pause evs
       <= delay * Z.of_nat retries * (Z.of_nat retries + 1))%Z /\
      forallb is_network_event evs = true) /\
  (retries = 0 ->
   out = (Raise (ThrownError "Max retries exceeded"), s)).
Proof.
  intros Hdelay out. subst out. unfold fetchWithRetry_with. split.
  - destruct (fetchWithRetry_loop_budget upstream url delay retries 0 s
                Hdelay (Z.le_refl 0))
      as (evs & Hh & Hr & Hl & Hp & _ & Htot & Hnet).
    exists evs. repeat split; try assumption; lia.
  - intros ->. reflexivity.
Qed.

Lemma fetchWithRetry_with_budget_witness :
  exists evs,
    history (fetchWithRetry
               (scripted [reply 503 no_body; reply 429 no_body;
                          reply 503 no_body]) "u" Session0).2 = evs /\
    request_count evs = 3 /\ total_pause evs = 6000%Z /\
    (2 * total_pause evs <= 1000 * 3 * (3 + 1))%Z.
Proof.
  destruct (fetchWithRetry_with_budget
              (scripted [reply 503 no_body; reply 429 no_body;
                         reply 503 no_body]) "u" 3 1000 Session0
              ltac:(discriminate)) as [(evs & Hh & _ & _ & _ & Htot & _) _].
  exists evs. split; [exact Hh|].
  cbn in Hh. subst evs. repeat split. exact Htot.
Defined.

(** X2.  A response that [fetchWithRetry] returns is a 2xx response, and
    it is the answer to the last request the call made. *)
Theorem fetchWithRetry_returns_last_ok (upstream : Upstream) (url : string)
        (retries : nat) (delay : Z) (s s' : Session) (r : Response) :
  fetchWithRetry_with upstream url retries delay s = (Value r, s') ->
  ok r = true /\
  requests s < requests s' /\
  upstream (requests s' - 1) url = FetchResolves r.
Proof.
  unfold fetchWithRetry_with. generalize 0%Z as i. revert s.
  induction retries as [|k IH]; intros s i; [discriminate|].
  rewrite fetchWithRetry_loop_S.
  destruct (upstream (requests s) url) as [e|r0] eqn:Hup; [discriminate|].
  destruct (ok r0) eqn:Hok.
  - intros [= <- <-]. cbn. rewrite Nat.sub_0_r. auto with lia.
  - destruct (retried r0).
    + intros Hrest. destruct (IH _ _ Hrest) as (Hokr & Hlt & Hlast).
      cbn in Hlt. repeat split; [assumption|lia|assumption].
    + destruct (status r0 =? 404)%Z; discriminate.
Qed.

Lemma fetchWithRetry_returns_last_ok_witness :
  ok {| status := 200; statusText := EmptyString;
        json := cids_body [712%Z] |} = true.
Proof.
  exact (proj1 (fetchWithRetry_returns_last_ok
                  (scripted [reply 429 no_body; reply 200 (cids_body [712%Z])])
                  "u" 3 1000 Session0 _ _ eq_refl)).
Defined.

(** ** [getCompoundByCas]: failures, the direct path, the budget *)

(** X3.  How a lookup ends when its first request goes wrong: a network
    failure, a 404, a 2xx answer whose body is not JSON, or another status
    that is not retried each end the lookup after that single request, as
    a failure whose error string is the message of the exception; no
    properties request is made. *)
Theorem lookup_search_failures (upstream : Upstream) (casNumber : string)
        (s : Session) :
  let first := upstream (requests s) (searchUrl casNumber) in
  let out := getCompoundByCas upstream casNumber s in
  let failed message :=
    (Value {| data := None; error := Some message |},
     asked (searchUrl casNumber) s) in
  (forall e, first = FetchRejects e -> out = failed (message_of e)) /\
  (forall r, first = FetchResolves r -> status r = 404%Z ->
             out = failed "Compound not found in PubChem") /\
  (forall r e, first = FetchResolves r -> ok r = true ->
               json r = JsonRejects e -> out = failed (message_of e)) /\
  (forall r, first = FetchResolves r -> ok r = false ->
             retried r = false -> status r <> 404%Z ->
             out = failed ("HTTP " +:+ Str.of_Z (status r) +:+ ": "
                           +:+ statusText r)).
Proof.
  intros first out failed. subst first out failed. cbv beta.
  rewrite getCompoundByCas_unfold, getCompoundByCas_try_unfold.
  unfold fetchWithRetry, fetchWithRetry_with.
  rewrite fetchWithRetry_loop_S.
  split; [|split; [|split]].
  - intros e ->. reflexivity.
  - intros r -> H404. unfold ok, retried. rewrite H404. reflexivity.
  - intros r e -> Hok Hjson. rewrite Hok, Hjson. reflexivity.
  - intros r -> Hok Hre H404. apply Z.eqb_neq in H404.
    rewrite Hok, Hre, H404. reflexivity.
Qed.

Lemma lookup_search_failures_witness :
  getCompoundByCas (scripted [reply 404 no_body]) "0000-00-0" Session0
  = (Value {| data := None;
              error := Some "Compound not found in PubChem" |},
     asked (searchUrl "0000-00-0") Session0) /\
  getCompoundByCas (scripted []) "50-00-0" Session0
  = (Value {| data := None; error := Some "fetch failed" |},
     asked (searchUrl "50-00-0") Session0).
Proof.
  split.
  - destruct (lookup_search_failures (scripted [reply 404 no_body])
                "0000-00-0" Session0) as (_ & H & _).
    exact (H _ eq_refl eq_refl).
  - destruct (lookup_search_failures (scripted []) "50-00-0" Session0)
      as (H & _).
    exact (H _ eq_refl).
Defined.

(** X4.  Once a compound id is known, whatever the properties request
    throws (exhausted retries, a 404, a network failure) or a properties
    body that is not JSON ends the lookup as a failure with the message of
    the exception; no partial record is built from the id alone. *)
Theorem lookup_properties_failures (upstream : Upstream) (casNumber : string)
        (s s1 : Session) (searchResponse : Response)
        (searchData : JsonObject) (cid : Z) :
  fetchWithRetry upstream (searchUrl casNumber) s
  = (Value searchResponse, s1) ->
  json searchResponse = JsonResolves searchData ->
  first_CID searchData = Some cid -> cid <> 0%Z ->
  let out := getCompoundByCas upstream casNumber s in
  (forall e s2,
      fetchWithRetry upstream (propsUrl cid) s1 = (Raise e, s2) ->
      out = (Value {| data := None; error := Some (message_of e) |}, s2)) /\
  (forall propsResponse e s2,
      fetchWithRetry upstream (propsUrl cid) s1 = (Value propsResponse, s2) ->
      json propsResponse = JsonRejects e ->
      out = (Value {| data := None; error := Some (message_of e) |}, s2)).
Proof.
  intros Hsearch Hjson Hcid Hnz out. subst out.
  rewrite getCompoundByCas_unfold, getCompoundByCas_try_unfold.
  apply Z.eqb_neq in Hnz. rewrite Hsearch, Hjson, Hcid, Hnz. split.
  - intros e s2 ->. reflexivity.
  - intros propsResponse e s2 -> ->. reflexivity.
Qed.

Lemma lookup_properties_failures_witness :
  (getCompoundByCas
     (scripted [reply 200 (cids_body [712%Z]); reply 503 no_body;
                reply 503 no_body; reply 429 no_body])
     "50-00-0" Session0).1
  = Value {| data := None; error := Some "Max retries exceeded" |}.
Proof.
  destruct (lookup_properties_failures
              (scripted [reply 200 (cids_body [712%Z]); reply 503 no_body;
                         reply 503 no_body; reply 429 no_body])
              "50-00-0" Session0 _ _ _ 712%Z eq_refl eq_refl eq_refl
              ltac:(discriminate)) as [H _].
  rewrite (H _ _ eq_refl). reflexivity.
Defined.

(** X5.  The direct path: when the name-to-ID request and the properties
    request of the first compound id are both answered 2xx at the first
    attempt, with an id that is a safe integer and not 0 and a property
    record, the lookup makes exactly these two requests, takes no pause,
    and resolves to the record of that id. *)
Theorem lookup_direct_path (upstream : Upstream) (casNumber : string)
        (s : Session) (searchResponse propsResponse : Response)
        (searchData propsData : JsonObject) (cid : Z) (props : Properties_t) :
  let propertiesOfCid :=
    "https://pubchem.ncbi.nlm.nih.gov/rest/pug/compound/cid/" +:+
    NilZero.string_of_int (Z.to_int cid) +:+
    "/property/IUPACName,Title,MolecularFormula,CanonicalSMILES/JSON" in
  let imageOfCid :=
    "=IMAGE(" +:+ dquote +:+
    "https://pubchem.ncbi.nlm.nih.gov/rest/pug/compound/cid/" +:+
    NilZero.string_of_int (Z.to_int cid) +:+ "/PNG" +:+ dquote +:+ ")" in
  upstream (requests s) (searchUrl casNumber) = FetchResolves searchResponse ->
  ok searchResponse = true ->
  json searchResponse = JsonResolves searchData ->
  first_CID searchData = Some cid -> cid <> 0%Z -> safe_integer cid ->
  upstream (requests s + 1) propertiesOfCid = FetchResolves propsResponse ->
  ok propsResponse = true ->
  json propsResponse = JsonResolves propsData ->
  first_Properties propsData = Some props ->
  getCompoundByCas upstream casNumber s
  = (Value {| data := Some {|
                ChemicalData.chemical_name :=
                  first_available [Title props; IUPACName props];
                ChemicalData.smiles_code :=
                  first_available [CanonicalSMILES props;
                                   ConnectivitySMILES props];
                ChemicalData.molecular_formula :=
                  first_available [MolecularFormula props];
                ChemicalData.structure_image_url := imageOfCid |};
              error := None |},
     {| requests := requests s + 2;
        history := history s ++ [Requested (searchUrl casNumber);
                                 Requested propertiesOfCid] |}).
Proof.
  intros propertiesOfCid imageOfCid.
  assert (Hurl : propsUrl cid = propertiesOfCid) by reflexivity.
  assert (Himage : image_formula cid = imageOfCid) by reflexivity.
  clearbody propertiesOfCid imageOfCid.
  intros Hup1 Hok1 Hjson1 Hcid Hnz _ Hup2 Hok2 Hjson2 Hprops.
  rewrite getCompoundByCas_unfold, getCompoundByCas_try_unfold.
  unfold fetchWithRetry, fetchWithRetry_with.
  rewrite fetchWithRetry_loop_S, Hup1, Hok1, Hjson1, Hcid.
  apply Z.eqb_neq in Hnz. rewrite Hnz.
  rewrite fetchWithRetry_loop_S. cbn [asked requests history].
  replace (S (requests s)) with (requests s + 1) by lia.
  rewrite Hurl, Hup2, Hok2, Hjson2, Hprops, Himage. same_session.
Qed.

Lemma lookup_direct_path_witness :
  exists record,
    getCompoundByCas formaldehyde_found "50-00-0" Session0
    = (Value {| data := Some record; error := None |},
       {| requests := 2;
          history :=
            [Requested ("https://pubchem.ncbi.nlm.nih.gov/rest/pug/compound"
                        +:+ "/name/50-00-0/cids/JSON");
             Requested ("https://pubchem.ncbi.nlm.nih.gov/rest/pug/compound"
                        +:+ "/cid/712/property/IUPACName,Title,"
                        +:+ "MolecularFormula,CanonicalSMILES/JSON")] |}) /\
    ChemicalData.chemical_name record = "Formaldehyde" /\
    ChemicalData.structure_image_url record
    = "=IMAGE(" +:+ dquote +:+
      "https://pubchem.ncbi.nlm.nih.gov/rest/pug/compound/cid/712/PNG" +:+
      dquote +:+ ")".
Proof.
  eexists. split.
  - exact (lookup_direct_path formaldehyde_found "50-00-0" Session0
             _ _ _ _ 712%Z formaldehyde eq_refl eq_refl eq_refl eq_refl
             ltac:(discriminate) ltac:(unfold safe_integer; lia)
             eq_refl eq_refl eq_refl eq_refl).
  - split; reflexivity.
Defined.

(** What one call of [fetchWithRetry] with the default parameters adds to
    the session. *)
Lemma fetchWithRetry_session upstream url s :
  exists evs,
    history (fetchWithRetry upstream url s).2 = history s ++ evs /\
    requests (fetchWithRetry upstream url s).2
    = requests s + request_count evs /\
    head evs = Some (Requested url) /\
    (forall u, Requested u ∈ evs -> u = url) /\
    request_count evs <= 3 /\
    (0 <= total_pause evs <= 6000)%Z /\
    forallb is_network_event evs = true.
Proof.
  unfold fetchWithRetry, fetchWithRetry_with.
  destruct (fetchWithRetry_loop_budget upstream url 1000 3 0 s
              ltac:(discriminate) (Z.le_refl 0))
    as (evs & Hh & Hr & Hl & _ & Hpos & Htot & Hnet).
  destruct (fetchWithRetry_loop_history upstream url 1000 3 0 s)
    as (evs' & Hh' & _ & _ & Hu & Hhead).
  assert (evs' = evs) as ->
    by (rewrite Hh in Hh'; now apply app_inv_head in Hh').
  exists evs. repeat split; try assumption; try lia. apply Hhead. lia.
Qed.

(** X6.  Whatever the upstream answers, one lookup makes between one and
    three name-to-ID requests for its identifier, followed by at most
    three properties requests, all to one properties URL; it pauses for at
    most 12 seconds in all and prints nothing. *)
Theorem lookup_budget (upstream : Upstream) (casNumber : string)
        (s : Session) :
  let out := getCompoundByCas upstream casNumber s in
  exists (searches properties : list Event) (idText : string),
    history out.2 = history s ++ searches ++ properties /\
    requests out.2
    = requests s + request_count searches + request_count properties /\
    head searches = Some (Requested (searchUrl casNumber)) /\
    (forall url, Requested url ∈ searches -> url = searchUrl casNumber) /\
    (forall url,
        Requested url ∈ properties ->
        url = "https://pubchem.ncbi.nlm.nih.gov/rest/pug/compound/cid/" +:+
              idText +:+ "/property/IUPACName,Title,MolecularFormula," +:+
              "CanonicalSMILES/JSON") /\
    1 <= request_count searches <= 3 /\
    request_count properties <= 3 /\
    (0 <= total_pause (searches ++ properties) <= 12000)%Z /\
    forallb is_network_event (searches ++ properties) = true.
Proof.
  intros out. subst out.
  rewrite getCompoundByCas_resolves. cbn [snd].
  rewrite getCompoundByCas_try_unfold.
  destruct (fetchWithRetry_session upstream (searchUrl casNumber) s)
    as (evs1 & Hh1 & Hr1 & Hhead1 & Hu1 & Hl1 & Hp1 & Hn1).
  assert (Hone : 1 <= request_count evs1).
  { destruct evs1 as [|ev evs1]; [discriminate|].
    cbn in Hhead1. injection Hhead1 as ->. cbn. lia. }
  assert (Hfirst : exists (searches properties : list Event) (idText : string),
             history (fetchWithRetry upstream (searchUrl casNumber) s).2
             = history s ++ searches ++ properties /\
             requests (fetchWithRetry upstream (searchUrl casNumber) s).2
             = requests s + request_count searches
               + request_count properties /\
             head searches = Some (Requested (searchUrl casNumber)) /\
             (forall url, Requested url ∈ searches ->
                          url = searchUrl casNumber) /\
             (forall url,
                 Requested url ∈ properties ->
                 url = "https://pubchem.ncbi.nlm.nih.gov/rest/pug/compound/cid/"
                       +:+ idText +:+
                       "/property/IUPACName,Title,MolecularFormula,"
                       +:+ "CanonicalSMILES/JSON") /\
             1 <= request_count searches <= 3 /\
             request_count properties <= 3 /\
             (0 <= total_pause (searches ++ properties) <= 12000)%Z /\
             forallb is_network_event (searches ++ properties) = true).
  { exists evs1, [], EmptyString. rewrite app_nil_r. cbn [request_count].
    repeat split; try assumption; try lia. intros url Hin. inversion Hin. }
  destruct (fetchWithRetry upstream (searchUrl casNumber) s)
    as [[searchResponse|e] s1]; [|exact Hfirst].
  destruct (json searchResponse) as [e|searchData]; [exact Hfirst|].
  destruct (first_CID searchData) as [cid|]; [|exact Hfirst].
  destruct (cid =? 0)%Z; [exact Hfirst|].
  cbn [snd] in Hh1, Hr1.
  destruct (fetchWithRetry_session upstream (propsUrl cid) s1)
    as (evs2 & Hh2 & Hr2 & _ & Hu2 & Hl2 & Hp2 & Hn2).
  assert (Hboth : exists (searches properties : list Event) (idText : string),
             history (fetchWithRetry upstream (propsUrl cid) s1).2
             = history s ++ searches ++ properties /\
             requests (fetchWithRetry upstream (propsUrl cid) s1).2
             = requests s + request_count searches
               + request_count properties /\
             head searches = Some (Requested (searchUrl casNumber)) /\
             (forall url, Requested url ∈ searches ->
                          url = searchUrl casNumber) /\
             (forall url,
                 Requested url ∈ properties ->
                 url = "https://pubchem.ncbi.nlm.nih.gov/rest/pug/compound/cid/"
                       +:+ idText +:+
                       "/property/IUPACName,Title,MolecularFormula,"
                       +:+ "CanonicalSMILES/JSON") /\
             1 <= request_count searches <= 3 /\
             request_count properties <= 3 /\
             (0 <= total_pause (searches ++ properties) <= 12000)%Z /\
             forallb is_network_event (searches ++ properties) = true).
  { exists evs1, evs2, (Str.of_Z cid).
    rewrite Hh2, Hr2, Hh1, Hr1, total_pause_app, forallb_app, Hn1, Hn2,
      <- app_assoc.
    repeat split; try assumption; try lia. }
  destruct (fetchWithRetry upstream (propsUrl cid) s1)
    as [[propsResponse|e] s2]; [|exact Hboth].
  destruct (json propsResponse) as [e|propsData]; [exact Hboth|].
  destruct (first_Properties propsData); exact Hboth.
Qed.

(** ** The rows of [processChemicals] *)

Lemma lookup_result_image upstream casNumber s record :
  data (lookup_result upstream casNumber s) = Some record ->
  exists cid, ChemicalData.structure_image_url record = image_formula cid.
Proof.
  unfold lookup_result. rewrite getCompoundByCas_try_unfold.
  destruct (fetchWithRetry upstream (searchUrl casNumber) s)
    as [[searchResponse|e] s1]; [|discriminate].
  destruct (json searchResponse) as [e|searchData]; [discriminate|].
  destruct (first_CID searchData) as [cid|]; [|discriminate].
  destruct (cid =? 0)%Z; [discriminate|].
  destruct (fetchWithRetry upstream (propsUrl cid) s1)
    as [[propsResponse|e] s2]; [|discriminate].
  destruct (json propsResponse) as [e|propsData]; [discriminate|].
  destruct (first_Properties propsData); [|discriminate].
  intros [= <-]. now exists cid.
Qed.

Lemma first_available_fallback (a : option string) (fallback : string) :
  fallback <> EmptyString ->
  first_available [a; Some fallback] <> EmptyString.
Proof.
  intros Hne. unfold first_available, available. cbn.
  destruct a as [v|]; cbn.
  - destruct (Str.is_empty v) eqn:E; cbn.
    + destruct (Str.is_empty fallback) eqn:E'; cbn; [|assumption].
      apply bool_decide_eq_true in E'. contradiction.
    + apply bool_decide_eq_false in E. exact E.
  - destruct (Str.is_empty fallback) eqn:E'; cbn; [|assumption].
    apply bool_decide_eq_true in E'. contradiction.
Qed.

(** X7.  The row the arrow function of [processChemicals] resolves to
    carries its identifier and is of one of two kinds: status "success",
    no error and an image reference that is not empty; or status "failed"
    with an error string that is not empty (an empty message is replaced
    by "Unknown error"). *)
Theorem row_error_iff_failed (responses : nat -> Upstream) (total : nat)
        (casNumber : string) (index : nat) (row : OutputRow.t) :
  processor responses total casNumber index = Value row ->
  OutputRow.cas_number row = casNumber /\
  ((OutputRow.status row = "success" /\ OutputRow.error row = None /\
    OutputRow.structure_image_url row <> EmptyString) \/
   (OutputRow.status row = "failed" /\
    exists message,
      OutputRow.error row = Some message /\ message <> EmptyString)).
Proof.
  rewrite processor_resolves. intros [= <-].
  unfold lookup_row, row_of.
  destruct (data (lookup_result _ _ _)) as [record|] eqn:Hdata; cbn.
  - split; [reflexivity|]. left. repeat split.
    destruct (lookup_result_image _ _ _ _ Hdata) as (cid & ->). discriminate.
  - split; [reflexivity|]. right. split; [reflexivity|]. eexists.
    split; [reflexivity|]. now apply first_available_fallback.
Qed.

Lemma row_error_iff_failed_witness :
  exists row,
    processor
      (fun _ => scripted [FetchRejects (ThrownError EmptyString)])
      1 "50-00-0" 0 = Value row /\
    OutputRow.error row = Some "Unknown error" /\
    OutputRow.cas_number row = "50-00-0".
Proof.
  eexists. split; [reflexivity|]. split; [reflexivity|].
  exact (proj1 (row_error_iff_failed
                  (fun _ => scripted [FetchRejects (ThrownError EmptyString)])
                  1 "50-00-0" 0 _ eq_refl)).
Defined.

Lemma success_failed_partition (rows : list OutputRow.t) :
  Forall (fun row => is_success_row row \/ is_failed_row row) rows ->
  length (filter (fun r => is_success r = true) rows)
  + length (filter (fun r => OutputRow.status r = "failed") rows)
  = length rows.
Proof.
  induction 1 as [|row rows Hrow _ IH]; [reflexivity|].
  rewrite !filter_cons.
  assert (Hiff : is_success row = true <-> OutputRow.status row = "success")
    by apply bool_decide_eq_true.
  destruct (decide (is_success row = true)) as [Hs|Hs],
           (decide (OutputRow.status row = "failed")) as [Hf|Hf]; cbn.
  - apply Hiff in Hs. congruence.
  - lia.
  - lia.
  - exfalso. destruct Hrow as [[Hs' _]|[Hf' _]]; [|contradiction].
    apply Hs, Hiff, Hs'.
Qed.

Lemma omap_id_values {T R : Type} (items : list T) (f : T -> nat -> R) :
  omap id (values items f) = imap (fun index item => f item index) items.
Proof.
  unfold values. generalize (imap (fun index item => f item index) items).
  intros l. induction l as [|x l IH]; [reflexivity|]. cbn. now rewrite IH.
Qed.

(** X8.  When a run is over, the successes it counts and the rows with
    status "failed" add up to the number of identifiers read: every
    identifier is reported, as one or the other. *)
Theorem success_and_failure_counts (responses : nat -> Upstream)
        (records : list (gmap string string)) (sched : list nat)
        (startTime endTime : Z) (report : Report) :
  processChemicals responses records sched startTime endTime
  = Fulfilled report ->
  successCount report
  + length (filter (fun r => OutputRow.status r = "failed")
                   (omap id (written report)))
  = length (Csv.readCasNumbersFromCsv records).
Proof.
  intros Hrun.
  rewrite (successCount_of_written _ _ _ _ _ _ Hrun).
  destruct (processChemicals_sound responses records sched startTime
              endTime) as [_ Hsound].
  rewrite (Hsound _ Hrun), omap_id_values.
  rewrite success_failed_partition; [apply length_imap|].
  apply Forall_forall. intros row Hin.
  apply list_elem_of_lookup in Hin as [i Hi].
  rewrite list_lookup_imap in Hi.
  destruct (Csv.readCasNumbersFromCsv records !! i) as [casNumber|];
    [|discriminate].
  injection Hi as <-. apply lookup_row_shapes.
Qed.

Lemma success_and_failure_counts_witness :
  exists report,
    processChemicals scenario_responses scenario_records [1; 2; 0] 10 25
    = Fulfilled report /\
    successCount report = 1 /\
    length (filter (fun r => OutputRow.status r = "failed")
                   (omap id (written report))) = 2.
Proof.
  eexists. split; [vm_compute; reflexivity|]. split; [reflexivity|].
  pose proof (success_and_failure_counts scenario_responses
                scenario_records [1; 2; 0] 10 25 _ eq_refl) as H.
  vm_compute in H. vm_compute. lia.
Defined.

(** ** [processInParallel]: edges, failing promises *)

(** X9.  When no worker is started, for a concurrency bound of 0 or an
    empty item list, the pool is over at once whatever the schedule: it
    resolves to an array of as many holes as there are items (the empty
    array for no items). *)
Theorem pool_without_workers {T R : Type} (items : list T)
        (processor : T -> nat -> Result R) (concurrency : nat)
        (sched : list nat) :
  Nat.min concurrency (length items) = 0 ->
  Pool.processInParallel items processor concurrency sched
  = Fulfilled (replicate (length items) None).
Proof.
  intros Hmin. unfold Pool.processInParallel, Pool.start. rewrite Hmin.
  destruct sched; reflexivity.
Qed.

Lemma pool_without_workers_witness :
  Pool.processInParallel ["a"; "b"; "c"]
    (fun item index => Value (item +:+ Str.of_nat index)) 0 [0; 1; 2]
  = Fulfilled [None; None; None] /\
  Pool.processInParallel []
    (fun (item : string) index => Value (item +:+ Str.of_nat index)) 5 [0]
  = Fulfilled [].
Proof.
  split.
  - exact (pool_without_workers ["a"; "b"; "c"] _ 0 [0; 1; 2] eq_refl).
  - exact (pool_without_workers [] _ 5 [0] eq_refl).
Defined.

Section PoolBounds.
Context {T R : Type}.
Variable items : list T.
Variable processor : T -> nat -> Result R.
Variable concurrency : nat.

Local Abbreviation Bounds := (pool_bounds items concurrency).

Lemma spawn_any k s :
  Pool.currentIndex s + k <= length items ->
  Pool.currentIndex (Pool.spawn items processor k s).1
  = Pool.currentIndex s + k /\
  Pool.results (Pool.spawn items processor k s).1 = Pool.results s /\
  Pool.started (Pool.spawn items processor k s).1
  = Pool.started s ++ seq (Pool.currentIndex s) k /\
  length (Pool.spawn items processor k s).2 = k /\
  forall j, j < k ->
    exists promise,
      (Pool.spawn items processor k s).2 !! j
      = Some (Pool.Awaiting (Pool.currentIndex s + j) promise).
Proof.
  revert s. induction k as [|k IH]; intros s Hk.
  - cbn. rewrite Nat.add_0_r, app_nil_r. repeat split. intros j Hj. lia.
  - cbn [Pool.spawn]. unfold Pool.worker_loop.
    destruct (items !! Pool.currentIndex s) as [item|] eqn:Hitem.
    2:{ apply lookup_ge_None in Hitem. lia. }
    match goal with
    | |- context [Pool.spawn items processor k ?s1] =>
        specialize (IH s1); destruct (Pool.spawn items processor k s1)
          as [s2 ws]
    end.
    cbn in IH |- *. destruct IH as (Hc & Hr & Hs & Hl & Hw); [lia|].
    repeat split.
    + lia.
    + assumption.
    + rewrite Hs, <- app_assoc. reflexivity.
    + lia.
    + intros [|j] Hj.
      * eexists. rewrite Nat.add_0_r. reflexivity.
      * destruct (Hw j) as (promise & Hwj); [lia|]. exists promise.
        replace (Pool.currentIndex s + S j)
          with (S (Pool.currentIndex s + j)) by lia.
        assumption.
Qed.

Lemma bounds_start : Bounds (Pool.start items processor concurrency).
Proof.
  unfold Pool.start.
  match goal with
  | |- Bounds (Pool.spawn _ _ ?k ?s0) =>
      destruct (spawn_any k s0) as (Hc & Hr & Hs & Hl & Hw);
        [cbn; lia|]; set (p := Pool.spawn items processor k s0) in *
  end.
  cbn in Hc, Hr, Hs, Hw.
  assert (Hat : forall w x, p.2 !! w = Some x ->
            exists promise, x = Pool.Awaiting w promise).
  { intros w x Hx. pose proof (lookup_lt_Some _ _ _ Hx) as Hlt.
    destruct (Hw w) as (promise & Hwi); [lia|]. exists promise. congruence. }
  split.
  - lia.
  - rewrite Hs, Hc. reflexivity.
  - rewrite Hr. apply length_replicate.
  - exact Hl.
  - intros w i promise Hwi. destruct (Hat _ _ Hwi) as (? & [= -> _]).
    apply lookup_lt_Some in Hwi. lia.
  - intros w1 w2 i promise1 promise2 H1 H2.
    destruct (Hat _ _ H1) as (? & [= -> _]).
    destruct (Hat _ _ H2) as (? & [= -> _]). reflexivity.
  - intros i Hi _. rewrite Hr. now apply lookup_replicate_2.
Qed.

Lemma bounds_settle w p : Bounds p -> Bounds (Pool.settle items processor w p).
Proof.
  intros HB. destruct p as [s ws]. unfold Pool.settle. cbn [fst snd].
  destruct (ws !! w) as [[i promise| |e]|] eqn:Hw; try exact HB.
  destruct HB as [Hcur Hst Hlen Hws Haw Hdis Hholes]. cbn [fst snd] in *.
  pose proof (Haw w i promise Hw) as Hic.
  pose proof (lookup_lt_Some _ _ _ Hw) as Hwlt.
  unfold Pool.worker_resume. destruct promise as [r|e].
  2:{ (* the promise rejected: nothing is written, nothing is claimed *)
    split; cbn [fst snd]; try assumption.
    - now rewrite length_insert.
    - intros w0 i0 promise0 [[_ [=]]|[_ Hold]]%lookup_replaced. eauto.
    - intros w1 w2 i0 promise1 promise2
        [[_ [=]]|[_ Hold1]]%lookup_replaced
        [[_ [=]]|[_ Hold2]]%lookup_replaced. eauto.
    - intros i0 Hi0 [Hge|(w0 & promise0 & Hw0)]; [now apply Hholes; auto|].
      apply lookup_replaced in Hw0 as [[_ [=]]|[_ Hold]].
      apply Hholes; eauto. }
  unfold Pool.worker_loop.
  cbn [Pool.currentIndex Pool.results Pool.started].
  assert (Hset : array_set (Pool.results s) i r
                 = <[i := Some r]> (Pool.results s)).
  { unfold array_set. rewrite decide_True by lia. reflexivity. }
  rewrite Hset. clear Hset.
  assert (Hother : forall i0,
             i0 < length items ->
             Pool.currentIndex s <= i0 \/
             (exists w0 promise0, w0 <> w /\
                ws !! w0 = Some (Pool.Awaiting i0 promise0)) ->
             <[i := Some r]> (Pool.results s) !! i0 = Some None).
  { intros i0 Hi0 Hwhy.
    assert (i0 <> i).
    { destruct Hwhy as [Hge|(w0 & promise0 & Hne & Hw0)]; [lia|].
      intros ->. apply Hne. eauto. }
    rewrite list_lookup_insert_ne by congruence.
    apply Hholes; [assumption|].
    destruct Hwhy as [Hge|(w0 & promise0 & _ & Hw0)]; eauto. }
  destruct (items !! Pool.currentIndex s) as [next|] eqn:Hnext.
  - pose proof (lookup_lt_Some _ _ _ Hnext) as Hnlt.
    split; cbn [fst snd Pool.currentIndex Pool.results Pool.started].
    + lia.
    + rewrite Hst, seq_S. reflexivity.
    + now rewrite length_insert.
    + now rewrite length_insert.
    + intros w0 i0 promise0 [[-> [= -> _]]|[Hne Hold]]%lookup_replaced.
      * lia.
      * pose proof (Haw _ _ _ Hold). lia.
    + intros w1 w2 i0 promise1 promise2
        [[-> [= -> _]]|[Hne1 Hold1]]%lookup_replaced
        [[-> E2]|[Hne2 Hold2]]%lookup_replaced.
      * reflexivity.
      * pose proof (Haw _ _ _ Hold2). lia.
      * injection E2 as -> _. pose proof (Haw _ _ _ Hold1). lia.
      * eauto.
    + intros i0 Hi0 [Hge|(w0 & promise0 & Hw0)].
      * apply Hother; [assumption|left; lia].
      * apply lookup_replaced in Hw0 as [[_ [= -> _]]|[Hne Hold]].
        -- apply Hother; [assumption|left; lia].
        -- apply Hother; [assumption|right; eauto].
  - apply lookup_ge_None in Hnext.
    split; cbn [fst snd Pool.currentIndex Pool.results Pool.started].
    + assumption.
    + assumption.
    + now rewrite length_insert.
    + now rewrite length_insert.
    + intros w0 i0 promise0 [[_ [=]]|[Hne Hold]]%lookup_replaced. eauto.
    + intros w1 w2 i0 promise1 promise2
        [[_ [=]]|[Hne1 Hold1]]%lookup_replaced
        [[_ [=]]|[Hne2 Hold2]]%lookup_replaced. eauto.
    + intros i0 Hi0 [Hge|(w0 & promise0 & Hw0)].
      * apply Hother; [assumption|left; lia].
      * apply lookup_replaced in Hw0 as [[_ [=]]|[Hne Hold]].
        apply Hother; [assumption|right; eauto].
Qed.

Lemma bounds_run sched p :
  Bounds p -> Bounds (Pool.run items processor sched p).
Proof.
  revert p. induction sched as [|w sched IH]; intros p HB; [exact HB|].
  cbn. apply IH, bounds_settle, HB.
Qed.
End PoolBounds.

(** X10.  Whatever the promises of the processor do, resolve or reject, at
    every moment of a run: the pool has min(C, item count) workers, at
    most C calls are in flight, the cursor has not passed the item count,
    the indices claimed are 0, 1, ... up to the cursor, no two workers
    hold the same index, the result array keeps the length of the item
    list (no cell is ever added), and the cell of an index that is still
    awaited is a hole. *)
Theorem pool_bounds_whatever_promises {T R : Type} (items : list T)
        (processor : T -> nat -> Result R) (concurrency : nat)
        (sched : list nat) :
  let p := Pool.run items processor sched
                    (Pool.start items processor concurrency) in
  length p.2 = Nat.min concurrency (length items) /\
  Pool.in_flight p <= concurrency /\
  Pool.currentIndex p.1 <= length items /\
  Pool.started p.1 = seq 0 (Pool.currentIndex p.1) /\
  length (Pool.results p.1) = length items /\
  (forall w1 w2 i promise1 promise2,
      p.2 !! w1 = Some (Pool.Awaiting i promise1) ->
      p.2 !! w2 = Some (Pool.Awaiting i promise2) -> w1 = w2) /\
  (forall w i promise,
      p.2 !! w = Some (Pool.Awaiting i promise) ->
      i < length items /\ Pool.results p.1 !! i = Some None).
Proof.
  intros p.
  assert (HB : pool_bounds items concurrency p)
    by apply bounds_run, bounds_start.
  destruct HB as [Hcur Hst Hlen Hws Haw Hdis Hholes].
  split; [exact Hws|]. split.
  { unfold Pool.in_flight. pose proof (length_filter Pool.is_awaiting p.2).
    lia. }
  split; [exact Hcur|]. split; [exact Hst|]. split; [exact Hlen|].
  split; [exact Hdis|].
  intros w i promise Hw. pose proof (Haw _ _ _ Hw).
  split; [lia|]. apply Hholes; [lia|]. eauto.
Qed.

Lemma settle_keeps_written {T R : Type} (items : list T)
      (processor : T -> nat -> Result R) (concurrency : nat) w p i (v : R) :
  pool_bounds items concurrency p ->
  Pool.results p.1 !! i = Some (Some v) ->
  Pool.results (Pool.settle items processor w p).1 !! i = Some (Some v).
Proof.
  intros HB Hv. destruct p as [s ws]. unfold Pool.settle. cbn [fst snd] in *.
  destruct (ws !! w) as [[j promise| |e]|] eqn:Hw; try exact Hv.
  unfold Pool.worker_resume. destruct promise as [r|e]; [|exact Hv].
  pose proof (bounds_awaiting _ _ _ HB w j _ Hw) as Hj.
  pose proof (bounds_cursor _ _ _ HB) as Hcur.
  pose proof (bounds_length _ _ _ HB) as Hlen.
  cbn [fst snd] in Hj, Hcur, Hlen.
  assert (Hhole : Pool.results s !! j = Some None).
  { apply (bounds_holes _ _ _ HB); [lia|]. right. eauto. }
  assert (j <> i) by congruence.
  unfold Pool.worker_loop. cbn [Pool.currentIndex Pool.results].
  unfold array_set. rewrite decide_True by lia.
  destruct (items !! Pool.currentIndex s); cbn [fst Pool.results];
    now rewrite list_lookup_insert_ne.
Qed.

(** X11.  A result, once written to its cell, stays: no later resumption
    of any worker, in any order, changes or removes it, whether the other
    promises resolve or reject. *)
Theorem result_cells_written_once {T R : Type} (items : list T)
        (processor : T -> nat -> Result R) (concurrency : nat)
        (sched later : list nat) (i : nat) (v : R) :
  Pool.results
    (Pool.run items processor sched
              (Pool.start items processor concurrency)).1 !! i
  = Some (Some v) ->
  Pool.results
    (Pool.run items processor (sched ++ later)
              (Pool.start items processor concurrency)).1 !! i
  = Some (Some v).
Proof.
  unfold Pool.run. rewrite foldl_app.
  fold (Pool.run items processor sched
                 (Pool.start items processor concurrency)).
  assert (HB : pool_bounds items concurrency
                 (Pool.run items processor sched
                           (Pool.start items processor concurrency)))
    by apply bounds_run, bounds_start.
  revert HB.
  generalize (Pool.run items processor sched
                       (Pool.start items processor concurrency)).
  induction later as [|w later IH]; intros p HB Hv; [exact Hv|].
  cbn [foldl]. apply IH.
  - now apply bounds_settle.
  - now apply (settle_keeps_written items processor concurrency).
Qed.

Lemma result_cells_written_once_witness :
  Pool.results
    (Pool.run ["a"; "b"; "c"]
       (fun item index => Value (item +:+ Str.of_nat index))
       ([1] ++ [0; 1; 0])
       (Pool.start ["a"; "b"; "c"]
          (fun item index => Value (item +:+ Str.of_nat index)) 2)).1 !! 1
  = Some (Some "b1").
Proof.
  exact (result_cells_written_once ["a"; "b"; "c"]
           (fun item index => Value (item +:+ Str.of_nat index)) 2
           [1] [0; 1; 0] 1 "b1" eq_refl).
Defined.

Lemma rejection_inserted {R : Type} (ws : list (Pool.worker (R:=R))) w x e :
  omap Pool.rejection ws = [] -> ws !! w = Some x ->
  omap Pool.rejection (<[w := Pool.Rejected e]> ws) = [e].
Proof.
  revert w. induction ws as [|y ws IH]; intros [|w] Hnone Hw;
    try discriminate.
  - cbn in Hw. injection Hw as ->. cbn in *.
    destruct (Pool.rejection x); [discriminate|]. now rewrite Hnone.
  - cbn in Hw, Hnone. destruct (Pool.rejection y) eqn:Hy; [discriminate|].
    change (<[S w := Pool.Rejected e]> (y :: ws))
      with (y :: <[w := Pool.Rejected e]> ws).
    cbn. rewrite Hy. now apply IH.
Qed.

(** X12.  The pool fails fast: when it is pending and a worker is resumed
    with a promise that rejected, the pool rejects with that error at
    once, whatever is still in flight and whatever the rest of the
    schedule; the result array and the cursor are left as they were. *)
Theorem pool_fails_fast {T R : Type} (items : list T)
        (processor : T -> nat -> Result R) (p : Pool.pool (R:=R))
        (w i : nat) (e : thrown) (sched : list nat) :
  Pool.promise_all p = Pending ->
  p.2 !! w = Some (Pool.Awaiting i (Raise e)) ->
  Pool.await_all items processor (w :: sched) p = Failed e /\
  (Pool.settle items processor w p).1 = p.1.
Proof.
  intros Hpending Hw. cbn [Pool.await_all]. rewrite Hpending.
  assert (Hsettle : Pool.settle items processor w p
                    = (p.1, <[w := Pool.Rejected e]> p.2)).
  { unfold Pool.settle. rewrite Hw. reflexivity. }
  rewrite Hsettle. split; [|reflexivity].
  assert (Hnone : omap Pool.rejection p.2 = []).
  { unfold Pool.promise_all in Hpending.
    destruct (omap Pool.rejection p.2); [reflexivity|discriminate]. }
  assert (Hfail : Pool.promise_all (p.1, <[w := Pool.Rejected e]> p.2)
                  = Failed e).
  { unfold Pool.promise_all. cbn [snd].
    now rewrite (rejection_inserted _ _ _ e Hnone Hw). }
  destruct sched; cbn [Pool.await_all]; now rewrite Hfail.
Qed.

Lemma pool_fails_fast_witness :
  Pool.processInParallel ["a"; "b"; "c"]
    (fun item index =>
       if bool_decide (index = 1) then Raise (ThrownError "boom")
       else Value item) 2 [1; 0; 0]
  = Failed (ThrownError "boom").
Proof.
  exact (proj1 (pool_fails_fast ["a"; "b"; "c"]
                  (fun item index =>
                     if bool_decide (index = 1)
                     then Raise (ThrownError "boom") else Value item)
                  (Pool.start ["a"; "b"; "c"]
                     (fun item index =>
                        if bool_decide (index = 1)
                        then Raise (ThrownError "boom") else Value item) 2)
                  1 1 (ThrownError "boom") [0; 0] eq_refl eq_refl)).
Defined.

Section PoolLength.
Context {T R : Type}.
Variable items : list T.
Variable f : T -> nat -> R.
Variable processor : T -> nat -> Result R.
Variable concurrency : nat.
Hypothesis resolves :
  forall item index, processor item index = Value (f item index).

Lemma none_in_flight (ws : list (Pool.worker (R:=R))) :
  forallb Pool.is_resolved ws = true ->
  length (filter Pool.is_awaiting ws) = 0.
Proof.
  induction ws as [|x ws IH]; [reflexivity|]. cbn [forallb].
  intros [Hx Hws]%andb_true_iff. rewrite filter_cons.
  destruct x; try discriminate. cbn. now apply IH.
Qed.

Lemma all_in_flight (ws : list (Pool.worker (R:=R))) :
  (forall j x, ws !! j = Some x -> Pool.is_awaiting x = true) ->
  length (filter Pool.is_awaiting ws) = length ws.
Proof.
  induction ws as [|x ws IH]; intros Hall; [reflexivity|].
  rewrite filter_cons. pose proof (Hall 0 x eq_refl) as Hx.
  rewrite decide_True by (now rewrite Hx). cbn. f_equal.
  apply IH. intros j y Hy. exact (Hall (S j) y Hy).
Qed.

Lemma remaining_start :
  remaining items (Pool.start items processor concurrency) = length items.
Proof.
  unfold remaining, Pool.in_flight, Pool.start.
  match goal with
  | |- context [Pool.spawn _ _ ?k ?s0] =>
      destruct (spawn_any items processor k s0) as (Hc & _ & _ & Hl & Hw);
        [cbn; lia|];
      set (p := Pool.spawn items processor k s0) in *
  end.
  cbn in Hc, Hw. rewrite all_in_flight, Hc, Hl; [lia|].
  intros j x Hx. pose proof (lookup_lt_Some _ _ _ Hx).
  destruct (Hw j) as (promise & Hj); [lia|].
  rewrite Hj in Hx. injection Hx as <-. reflexivity.
Qed.

Lemma remaining_fulfilled p results :
  1 <= concurrency -> pool_invariant items f concurrency p ->
  Pool.promise_all p = Fulfilled results -> remaining items p = 0.
Proof.
  intros HC HI Hall.
  destruct (fulfilled_values items f concurrency p results HC HI Hall)
    as [_ Hstarted].
  rewrite (inv_started _ _ _ _ HI) in Hstarted.
  apply (f_equal length) in Hstarted. rewrite !length_seq in Hstarted.
  rewrite (promise_all_cases items f concurrency p HI) in Hall.
  destruct (forallb Pool.is_resolved p.2) eqn:Hres; [|discriminate].
  unfold remaining, Pool.in_flight. rewrite (none_in_flight _ Hres). lia.
Qed.

Lemma await_all_needs sched p results :
  1 <= concurrency -> pool_invariant items f concurrency p ->
  Pool.await_all items processor sched p = Fulfilled results ->
  remaining items p <= length sched.
Proof.
  intros HC. revert p. induction sched as [|w sched IH]; intros p HI.
  - cbn. destruct (Pool.promise_all p) as [|rs|e] eqn:Hp; try discriminate.
    intros _. rewrite (remaining_fulfilled _ _ HC HI Hp). lia.
  - cbn. destruct (Pool.promise_all p) as [|rs|e] eqn:Hp; try discriminate.
    + intros Hrun.
      pose proof (IH _ (invariant_settle items f processor concurrency
                          resolves w p HI) Hrun) as Hle.
      destruct (p.2 !! w) as [[i promise| |e]|] eqn:Hw.
      * pose proof (settle_remaining items f processor concurrency
                      w i promise p HI Hw). lia.
      * unfold Pool.settle in Hle. rewrite Hw in Hle. lia.
      * unfold Pool.settle in Hle. rewrite Hw in Hle. lia.
      * unfold Pool.settle in Hle. rewrite Hw in Hle. lia.
    + intros _. rewrite (remaining_fulfilled _ _ HC HI Hp). lia.
Qed.
End PoolLength.

(** X13.  The pool is never over early: with a concurrency bound of at
    least 1 and promises that resolve, a schedule under which the pool
    resolves has at least as many resumptions as there are items (every
    lookup must have completed). *)
Theorem pool_needs_every_completion {T R : Type} (items : list T)
        (f : T -> nat -> R) (processor : T -> nat -> Result R)
        (concurrency : nat) (sched : list nat) (results : list (option R)) :
  (forall item index, processor item index = Value (f item index)) ->
  1 <= concurrency ->
  Pool.processInParallel items processor concurrency sched
  = Fulfilled results ->
  length items <= length sched.
Proof.
  intros Hres HC Hrun.
  rewrite <- (remaining_start items processor concurrency).
  apply (await_all_needs items f processor concurrency Hres sched _ results
           HC); [|exact Hrun].
  now apply invariant_start.
Qed.

Lemma pool_needs_every_completion_witness :
  3 <= length [1; 0; 1] /\
  Pool.processInParallel ["a"; "b"; "c"]
    (fun item index => Value (item +:+ Str.of_nat index)) 2 [1; 0]
  = Pending.
Proof.
  split; [|reflexivity].
  exact (pool_needs_every_completion ["a"; "b"; "c"]
           (fun item index => item +:+ Str.of_nat index)
           (fun item index => Value (item +:+ Str.of_nat index)) 2
           [1; 0; 1] [Some "a0"; Some "b1"; Some "c2"]
           (fun _ _ => eq_refl) (le_S _ _ (le_n 1)) eq_refl).
Defined.

(** ** The URLs of a lookup *)

Lemma string_app_assoc (a b c : string) : (a +:+ b) +:+ c = a +:+ b +:+ c.
Proof.
  induction a as [|x a IH]; [reflexivity|].
  change (String x (a +:+ b) +:+ c = String x (a +:+ b +:+ c)).
  change (String x ((a +:+ b) +:+ c) = String x (a +:+ b +:+ c)).
  now rewrite IH.
Qed.

Lemma string_forallb_app P (a b : string) :
  string_forallb P (a +:+ b) = string_forallb P a && string_forallb P b.
Proof.
  induction a as [|x a IH]; [reflexivity|].
  change (String x a +:+ b) with (String x (a +:+ b)).
  cbn [string_forallb]. now rewrite IH, andb_assoc.
Qed.

Lemma string_app_inv_tail (a b t : string) : a +:+ t = b +:+ t -> a = b.
Proof.
  revert b. induction a as [|x a IH]; intros [|y b] H.
  - reflexivity.
  - apply (f_equal String.length) in H.
    rewrite !string_length_app in H. cbn in H. lia.
  - apply (f_equal String.length) in H.
    rewrite !string_length_app in H. cbn in H. lia.
  - change (String x (a +:+ t) = String y (b +:+ t)) in H.
    injection H as -> H. f_equal. now apply IH.
Qed.

Lemma encode_unit_unreserved c :
  is_unreserved c = true -> Url.encode_unit c = String c EmptyString.
Proof. unfold is_unreserved, Url.encode_unit. now intros ->. Qed.

Lemma encode_unit_units c :
  string_forallb is_component_unit (Url.encode_unit c) = true.
Proof. destruct c as [[] [] [] [] [] [] [] []]; vm_compute; reflexivity. Qed.

Lemma decode_encode_unit c rest :
  decode_component (Url.encode_unit c +:+ rest)
  = String c (decode_component rest).
Proof. destruct c as [[] [] [] [] [] [] [] []]; reflexivity. Qed.

Lemma decode_encodeURIComponent s :
  decode_component (Url.encodeURIComponent s) = s.
Proof.
  induction s as [|c s IH]; [reflexivity|].
  cbn [Url.encodeURIComponent]. now rewrite decode_encode_unit, IH.
Qed.

Lemma encodeURIComponent_units s :
  string_forallb is_component_unit (Url.encodeURIComponent s) = true.
Proof.
  induction s as [|c s IH]; [reflexivity|].
  cbn [Url.encodeURIComponent].
  now rewrite string_forallb_app, encode_unit_units, IH.
Qed.

Lemma encodeURIComponent_unreserved s :
  string_forallb is_unreserved s = true -> Url.encodeURIComponent s = s.
Proof.
  induction s as [|c s IH]; [reflexivity|].
  cbn [string_forallb Url.encodeURIComponent].
  intros [Hc Hs]%andb_true_iff.
  now rewrite (encode_unit_unreserved _ Hc), (IH Hs).
Qed.

(** X14.  The identifier enters the name-to-ID URL as one path segment
    made only of unreserved characters and percent escapes, so it can add
    neither a slash, a query nor a fragment to the URL; the identifier can
    be read back from the segment; and an identifier of unreserved
    characters only (a CAS number of digits and hyphens) is embedded as it
    is. *)
Theorem search_url_segment (casNumber : string) :
  exists segment,
    searchUrl casNumber
    = PUBCHEM_BASE_URL +:+ "/compound/name/" +:+ segment +:+ "/cids/JSON" /\
    string_forallb is_component_unit segment = true /\
    decode_component segment = casNumber /\
    (string_forallb is_unreserved casNumber = true -> segment = casNumber).
Proof.
  exists (Url.encodeURIComponent casNumber).
  split; [reflexivity|]. split; [apply encodeURIComponent_units|].
  split; [apply decode_encodeURIComponent|].
  apply encodeURIComponent_unreserved.
Qed.

Lemma search_url_segment_witness :
  searchUrl "50-00-0"
  = "https://pubchem.ncbi.nlm.nih.gov/rest/pug/compound/name/50-00-0/cids/JSON".
Proof.
  destruct (search_url_segment "50-00-0") as (segment & -> & _ & _ & Hsame).
  rewrite (Hsame eq_refl). reflexivity.
Defined.

Lemma of_Z_inj (a b : Z) : Str.of_Z a = Str.of_Z b -> a = b.
Proof.
  assert (Hparse : forall z,
             NilZero.int_of_string (Str.of_Z z) = Some (Z.to_int z)).
  { intros z. unfold Str.of_Z. apply NilZero.isi.
    - destruct z as [|p|p]; cbn; try discriminate.
      intros [= H]. exact (DecimalPos.Unsigned.to_uint_nonnil p H).
    - destruct z as [|p|p]; cbn; try discriminate.
      intros [= H]. exact (DecimalPos.Unsigned.to_uint_nonnil p H). }
  intros H. apply (f_equal NilZero.int_of_string) in H.
  rewrite !Hparse in H. injection H as H.
  apply (f_equal Z.of_int) in H. now rewrite !DecimalZ.of_to in H.
Qed.

(** X15.  Distinct identifiers have distinct name-to-ID URLs, and distinct
    compound ids have distinct properties URLs and distinct image
    formulas: no two lookups are confused upstream. *)
Theorem lookup_urls_injective :
  (forall a b : string, searchUrl a = searchUrl b -> a = b) /\
  (forall a b : Z, propsUrl a = propsUrl b -> a = b) /\
  (forall a b : Z, structureImageUrl a = structureImageUrl b -> a = b).
Proof.
  split; [|split].
  - intros a b H. unfold searchUrl in H.
    do 2 apply String.app_inj in H. apply string_app_inv_tail in H.
    apply (f_equal decode_component) in H.
    now rewrite !decode_encodeURIComponent in H.
  - intros a b H. unfold propsUrl in H.
    do 2 apply String.app_inj in H. apply string_app_inv_tail in H.
    now apply of_Z_inj.
  - intros a b H. unfold structureImageUrl in H.
    do 3 apply String.app_inj in H. apply string_app_inv_tail in H.
    now apply of_Z_inj.
Qed.

Lemma lookup_urls_injective_witness :
  searchUrl "50-00-0" <> searchUrl "50-00-1" /\ propsUrl 712 <> propsUrl 713.
Proof.
  destruct lookup_urls_injective as (Hsearch & Hprops & _).
  split.
  - intros H. apply Hsearch in H. discriminate.
  - intros H. apply Hprops in H. discriminate.
Defined.

(** ** The reader, row by row *)

Lemma reader_is_omap records :
  Csv.readCasNumbersFromCsv records = omap Csv.kept_of_row records.
Proof. unfold Csv.readCasNumbersFromCsv. now rewrite reader_foldl. Qed.

Lemma length_omap_le {A B : Type} (g : A -> option B) (l : list A) :
  length (omap g l) <= length l.
Proof.
  induction l as [|x l IH]; [reflexivity|]. cbn.
  destruct (g x); cbn; lia.
Qed.

(** X16.  The reader works row by row: reading two lists of records one
    after the other gives the identifiers of the first followed by those
    of the second (the order of the rows is kept); a list of records gives
    at most one identifier per record, and no record gives none. *)
Theorem reader_is_row_wise (records1 records2 : list (gmap string string)) :
  Csv.readCasNumbersFromCsv (records1 ++ records2)
  = Csv.readCasNumbersFromCsv records1 ++ Csv.readCasNumbersFromCsv records2 /\
  length (Csv.readCasNumbersFromCsv records1) <= length records1 /\
  Csv.readCasNumbersFromCsv [] = [].
Proof.
  rewrite !reader_is_omap. split; [apply omap_app|].
  split; [apply length_omap_le|reflexivity].
Qed.

Lemma kept_of_row_same record1 record2 :
  same_recognised_cells record1 record2 ->
  Csv.kept_of_row record1 = Csv.kept_of_row record2.
Proof.
  intros Hsame.
  unfold Csv.kept_of_row, Csv.filled_cell, Csv.recognised_columns.
  cbn [omap list_omap].
  rewrite (Hsame "cas_number"), (Hsame "CAS"), (Hsame "cas"),
    (Hsame "CAS Number");
    try (apply list_elem_of_In; simpl; tauto).
  reflexivity.
Qed.

(** X17.  Only the four recognised columns are read: two lists of records
    whose records have, row by row, the same cells in these columns give
    the same identifiers, whatever their other columns hold. *)
Theorem reader_reads_recognised_columns_only
        (records1 records2 : list (gmap string string)) :
  Forall2 same_recognised_cells records1 records2 ->
  Csv.readCasNumbersFromCsv records1 = Csv.readCasNumbersFromCsv records2.
Proof.
  rewrite !reader_is_omap.
  induction 1 as [|record1 record2 records1 records2 Hsame _ IH];
    [reflexivity|].
  cbn [omap list_omap]. now rewrite (kept_of_row_same _ _ Hsame), IH.
Qed.

Lemma reader_reads_recognised_columns_only_witness :
  Csv.readCasNumbersFromCsv
    [ {[ "CAS" := "50-00-0"; "name" := "formaldehyde" ]};
      {[ "Cas_Number" := "64-17-5" ]} ]
  = Csv.readCasNumbersFromCsv [ {[ "CAS" := "50-00-0" ]}; ∅ ].
Proof.
  apply reader_reads_recognised_columns_only.
  repeat constructor; intros column Hin; apply list_elem_of_In in Hin;
    simpl in Hin;
    destruct Hin as [<-|[<-|[<-|[<-|[]]]]]; reflexivity.
Defined.

Lemma string_rev_app_spec (s acc : string) :
  String.rev_app s acc = String.rev s +:+ acc.
Proof.
  revert acc. induction s as [|c s IH]; intros acc; [reflexivity|].
  unfold String.rev. cbn [String.rev_app].
  rewrite (IH (String c acc)), (IH (String c EmptyString)).
  now rewrite string_app_assoc.
Qed.

Lemma string_app_empty_r (s : string) : s +:+ EmptyString = s.
Proof.
  induction s as [|c s IH]; [reflexivity|].
  change (String c (s +:+ EmptyString) = String c s). now rewrite IH.
Qed.

Lemma string_rev_app_distr (a b : string) :
  String.rev (a +:+ b) = String.rev b +:+ String.rev a.
Proof.
  induction a as [|c a IH].
  - change (EmptyString +:+ b) with b. cbn. now rewrite string_app_empty_r.
  - change (String c a +:+ b) with (String c (a +:+ b)).
    unfold String.rev at 1 3. cbn [String.rev_app].
    rewrite !string_rev_app_spec, IH. now rewrite string_app_assoc.
Qed.

Lemma string_rev_involutive (s : string) : String.rev (String.rev s) = s.
Proof.
  induction s as [|c s IH]; [reflexivity|].
  unfold String.rev at 2. cbn [String.rev_app].
  rewrite string_rev_app_spec, string_rev_app_distr, IH. reflexivity.
Qed.

Lemma trim_start_clean s : starts_clean (Csv.trim_start s).
Proof.
  induction s as [|c s IH]; [exact I|]. cbn [Csv.trim_start].
  destruct (Csv.is_white_space c) eqn:Hc; [exact IH|exact Hc].
Qed.

Lemma trim_start_split s :
  exists blank, s = blank +:+ Csv.trim_start s.
Proof.
  induction s as [|c s [blank IH]]; [now exists EmptyString|].
  cbn [Csv.trim_start]. destruct (Csv.is_white_space c).
  - exists (String c blank).
    change (String c s = String c (blank +:+ Csv.trim_start s)).
    now rewrite <- IH.
  - now exists EmptyString.
Qed.

Lemma trim_clean s :
  starts_clean (Csv.trim s) /\ ends_clean (Csv.trim s).
Proof.
  unfold ends_clean, Csv.trim. rewrite string_rev_involutive.
  split; [|apply trim_start_clean].
  destruct (trim_start_split (String.rev (Csv.trim_start s)))
    as [blank Hsplit].
  apply (f_equal String.rev) in Hsplit.
  rewrite string_rev_involutive, string_rev_app_distr in Hsplit.
  pose proof (trim_start_clean s) as Hclean. rewrite Hsplit in Hclean.
  destruct (String.rev (Csv.trim_start (String.rev (Csv.trim_start s))));
    [exact I|exact Hclean].
Qed.

(** X18.  Every identifier the reader returns is trimmed, whatever the
    cells hold: it neither begins nor ends with white space. *)
Theorem reader_identifiers_trimmed (records : list (gmap string string))
        (identifier : string) :
  identifier ∈ Csv.readCasNumbersFromCsv records ->
  starts_clean identifier /\ ends_clean identifier.
Proof.
  rewrite reader_is_omap. intros (record & _ & Hkept)%list_elem_of_omap.
  unfold Csv.kept_of_row in Hkept.
  destruct (head _) as [v|]; [|discriminate].
  injection Hkept as <-. apply trim_clean.
Qed.

Lemma reader_identifiers_trimmed_witness :
  starts_clean "64-17-5" /\ ends_clean "64-17-5".
Proof.
  apply (reader_identifiers_trimmed [ {[ "cas" := "  64-17-5 " ]} ]).
  apply list_elem_of_here.
Defined.

(** ** The default output path and the input file *)

(** X19.  Without an explicit output path, the output path is the input
    path itself exactly when the input path does not end in [.csv] (in
    any letter case): the results then replace the input file.  When it
    does end in [.csv], the output path is 8 characters longer and again
    ends in [.csv]. *)
Theorem default_output_overwrites_input_iff (path_resolve : string -> string)
        (args : list string) (arg0 : string) :
  args !! 0 = Some arg0 ->
  Str.truthy_opt (args !! 1) = false ->
  exists outputPath,
    Cli.main_paths path_resolve args = Some (path_resolve arg0, outputPath) /\
    (outputPath = path_resolve arg0 <->
     Cli.has_csv_suffix (path_resolve arg0) = false) /\
    (Cli.has_csv_suffix (path_resolve arg0) = true ->
     String.length outputPath = String.length (path_resolve arg0) + 8 /\
     Cli.has_csv_suffix outputPath = true).
Proof.
  intros Harg0 Harg1. unfold Cli.main_paths. rewrite Harg0, Harg1.
  eexists. split; [reflexivity|].
  assert (Hcsv : Cli.has_csv_suffix (path_resolve arg0) = true ->
                 String.length (Cli.replace_csv_suffix (path_resolve arg0))
                 = String.length (path_resolve arg0) + 8 /\
                 Cli.has_csv_suffix
                   (Cli.replace_csv_suffix (path_resolve arg0)) = true).
  { intros (stem & ext & -> & Hext)%has_csv_suffix_spec.
    rewrite (replace_csv_suffix_app _ _ Hext), !string_length_app.
    rewrite (matches_csv_here_length _ Hext). split; [cbn; lia|].
    apply has_csv_suffix_spec. exists (stem +:+ "_results"), ".csv".
    split; [now rewrite string_app_assoc|reflexivity]. }
  split; [|exact Hcsv]. split.
  - intros Hsame.
    destruct (Cli.has_csv_suffix (path_resolve arg0)) eqn:Hsuffix;
      [|reflexivity].
    destruct (Hcsv eq_refl) as [Hlen _]. rewrite Hsame in Hlen. lia.
  - apply replace_csv_suffix_none.
Qed.

Lemma default_output_overwrites_input_iff_witness :
  Cli.main_paths id ["/data/list.txt"]
  = Some ("/data/list.txt", "/data/list.txt") /\
  exists outputPath,
    Cli.main_paths id ["/data/list.CSV"] = Some ("/data/list.CSV", outputPath)
    /\ String.length outputPath = 22.
Proof.
  split.
  - destruct (default_output_overwrites_input_iff id ["/data/list.txt"]
                "/data/list.txt" eq_refl eq_refl)
      as (outputPath & -> & Hiff & _).
    cbn [id] in Hiff. now rewrite (proj2 Hiff eq_refl).
  - destruct (default_output_overwrites_input_iff id ["/data/list.CSV"]
                "/data/list.CSV" eq_refl eq_refl)
      as (outputPath & Hmain & _ & Hcsv).
    exists outputPath. split; [exact Hmain|].
    destruct (Hcsv eq_refl) as [Hlen _]. exact Hlen.
Defined.

(** ** One row, one lookup *)

(** X20.  A row depends on the responses of its own lookup only: two runs
    over the same records in which the lookup at index [i] receives the
    same responses write the same row at [i], whatever the other lookups
    receive (failures included) and whatever the orders of completion. *)
Theorem row_depends_on_own_responses (responses1 responses2 : nat -> Upstream)
        (records : list (gmap string string)) (sched1 sched2 : list nat)
        (start1 end1 start2 end2 : Z) (report1 report2 : Report) (i : nat) :
  (forall n url, responses1 i n url = responses2 i n url) ->
  processChemicals responses1 records sched1 start1 end1
  = Fulfilled report1 ->
  processChemicals responses2 records sched2 start2 end2
  = Fulfilled report2 ->
  written report1 !! i = written report2 !! i.
Proof.
  intros Hsame Hrun1 Hrun2.
  destruct (processChemicals_sound responses1 records sched1 start1 end1)
    as [_ H1].
  destruct (processChemicals_sound responses2 records sched2 start2 end2)
    as [_ H2].
  rewrite (H1 _ Hrun1), (H2 _ Hrun2). unfold values.
  rewrite !list_lookup_fmap, !list_lookup_imap.
  destruct (Csv.readCasNumbersFromCsv records !! i) as [casNumber|];
    [|reflexivity].
  cbn. unfold lookup_row. do 3 f_equal. now apply lookup_result_same.
Qed.

Lemma row_depends_on_own_responses_witness :
  exists report1 report2,
    processChemicals scenario_responses scenario_records [0; 1; 2] 0 1
    = Fulfilled report1 /\
    processChemicals (fun index => scenario_responses (index * 2))
                     scenario_records [2; 1; 0] 0 1
    = Fulfilled report2 /\
    written report1 !! 0 = written report2 !! 0 /\
    written report1 !! 1 <> written report2 !! 1.
Proof.
  eexists _, _. split; [vm_compute; reflexivity|].
  split; [vm_compute; reflexivity|]. split; [|discriminate].
  exact (row_depends_on_own_responses scenario_responses
           (fun index => scenario_responses (index * 2)) scenario_records
           [0; 1; 2] [2; 1; 0] 0 1 0 1 _ _ 0 (fun _ _ => eq_refl)
           eq_refl eq_refl).
Defined.
